(** * pympress.util: resource lookup, screensaver control and the debounced
      file watcher

    A shallow embedding of [pympress/util.py].  Python strings are [string];
    the library calls the module makes ([os.path], [pkg_resources],
    [os.system], [os.popen], [subprocess], [winreg], [GLib], [watchdog]) are
    small executable models of what the call does; the functions of the
    module are written over them, statement by statement, in the order of
    the source.

    Scope of the models: [os.path] is the POSIX one ([posixpath.py]);
    [pkg_resources] is its file-system provider; the GLib main loop and the
    watchdog observer are run one step at a time ([advance],
    [file_modified]), so that the watcher is a sequential state machine. *)

From Stdlib Require Import String Ascii List Bool Arith ZArith Lia DecimalString.
Import ListNotations.
Open Scope list_scope.
Open Scope string_scope.

(** ** Python values shared by the whole module *)

(** The exception classes the module raises, catches or lets through, all
    of them subclasses of [Exception]. *)
Inductive Exn : Type :=
| OSError (msg : string)
| PermissionError
| AssertionError
| AttributeError
| DistributionNotFound
| RuntimeError
| GLibError (msg : string).

(** [isinstance(e, OSError)]: [except OSError] also takes its subclass
    [PermissionError]. *)
Definition is_OSError (e : Exn) : bool :=
  match e with
  | OSError _ | PermissionError => true
  | _ => false
  end.

Inductive Result (A : Type) : Type :=
| Ok (a : A)
| Raise (e : Exn).
Arguments Ok {A} a.
Arguments Raise {A} e.

(** ** [str] methods used by the module *)
Module PyStr.

Definition slash : ascii := "/"%char.
Definition dot : ascii := "."%char.

(** [s.startswith(p)] *)
Definition startswith (p s : string) : bool := String.prefix p s.

(** [s.endswith(c)] for a one-character [c] *)
Fixpoint endswith_char (c : ascii) (s : string) : bool :=
  match s with
  | EmptyString => false
  | String a EmptyString => Ascii.eqb a c
  | String _ s' => endswith_char c s'
  end.

(** [s[:n]] and [s[n:]] for [0 <= n] *)
Fixpoint take (n : nat) (s : string) : string :=
  match n, s with
  | S n', String a s' => String a (take n' s')
  | _, _ => EmptyString
  end.

Fixpoint drop (n : nat) (s : string) : string :=
  match n, s with
  | S n', String _ s' => drop n' s'
  | _, _ => s
  end.

(** [s.rfind(c)]: the index of the last [c], [-1] when there is none *)
Fixpoint rfind_from (c : ascii) (s : string) (i last : Z) : Z :=
  match s with
  | EmptyString => last
  | String a s' => rfind_from c s' (i + 1) (if Ascii.eqb a c then i else last)
  end.

Definition rfind (c : ascii) (s : string) : Z := rfind_from c s 0 (-1).

(** [c * n] *)
Fixpoint repeat_char (c : ascii) (n : nat) : string :=
  match n with
  | O => EmptyString
  | S n' => String c (repeat_char c n')
  end.

(** [s.rstrip(c)] *)
Fixpoint rstrip_char (c : ascii) (s : string) : string :=
  match s with
  | EmptyString => EmptyString
  | String a s' =>
      match rstrip_char c s' with
      | EmptyString => if Ascii.eqb a c then EmptyString else String a EmptyString
      | r => String a r
      end
  end.

(** [s.split(c)]: never empty, one more piece than there are [c]'s *)
Fixpoint split_char (c : ascii) (s : string) : list string :=
  match s with
  | EmptyString => [EmptyString]
  | String a s' =>
      if Ascii.eqb a c then EmptyString :: split_char c s'
      else match split_char c s' with
           | [] => [String a EmptyString]
           | h :: t => String a h :: t
           end
  end.

(** [sep.join(parts)] *)
Fixpoint join (sep : string) (parts : list string) : string :=
  match parts with
  | [] => EmptyString
  | [p] => p
  | p :: rest => p ++ sep ++ join sep rest
  end.

(** [s.lower()] on the ASCII range *)
Definition lower_char (a : ascii) : ascii :=
  let n := nat_of_ascii a in
  if ((65 <=? n) && (n <=? 90))%nat then ascii_of_nat (n + 32) else a.

Fixpoint lower (s : string) : string :=
  match s with
  | EmptyString => EmptyString
  | String a s' => String (lower_char a) (lower s')
  end.

(** [s.count(sub) > 0] *)
Fixpoint contains (sub s : string) : bool :=
  String.prefix sub s ||
  match s with
  | EmptyString => false
  | String _ s' => contains sub s'
  end.

(** The characters [str.split()] treats as separators in ASCII text. *)
Definition is_space (a : ascii) : bool :=
  let n := nat_of_ascii a in
  ((n =? 32) || ((9 <=? n) && (n <=? 13)) || ((28 <=? n) && (n <=? 31)))%nat.

(** [s.split()]: the maximal runs of non-blank characters.  [cur] is the
    run being read, in order. *)
Fixpoint words_from (cur : string) (s : string) : list string :=
  match s with
  | EmptyString => if cur =? "" then [] else [cur]
  | String a s' =>
      if is_space a
      then (if cur =? "" then words_from "" s' else cur :: words_from "" s')
      else words_from (cur ++ String a EmptyString) s'
  end.

Definition words (s : string) : list string := words_from "" s.

(** [str(n)] for an [int] *)
Definition str_of_nat (n : nat) : string :=
  NilEmpty.string_of_uint (Nat.to_uint n).

Definition str_of_Z (z : Z) : string :=
  NilEmpty.string_of_int (Z.to_int z).

(** The line terminator [readlines] leaves at the end of each line. *)
Definition nl : string := String (ascii_of_nat 10) EmptyString.

End PyStr.

(** ** [os.path] (the POSIX flavour, [posixpath.py]) *)
Module PosixPath.
Import PyStr.

(** [os.path.dirname]: everything up to the last slash, with the trailing
    slashes removed unless the head is made of slashes only. *)
Definition dirname (p : string) : string :=
  let i := Z.to_nat (rfind slash p + 1) in
  let head := take i p in
  if negb (head =? "") && negb (head =? repeat_char slash (String.length head))
  then rstrip_char slash head
  else head.

(** One iteration of the loop of [os.path.join]. *)
Definition join_step (path b : string) : string :=
  if startswith "/" b then b
  else if (path =? "") || endswith_char slash path then path ++ b
  else path ++ "/" ++ b.

Definition join (a : string) (p : list string) : string :=
  fold_left join_step p a.

(** [genericpath._splitext(p, '/', None, '.')]; [skip_dots] is its
    [while] loop, the fuel being the distance [dotIndex - filenameIndex]. *)
Fixpoint skip_dots (p : string) (dotIndex : nat) (filenameIndex fuel : nat)
  : string * string :=
  match fuel with
  | O => (p, EmptyString)
  | S fuel' =>
      if negb (take 1 (drop filenameIndex p) =? ".")
      then (take dotIndex p, drop dotIndex p)
      else skip_dots p dotIndex (S filenameIndex) fuel'
  end.

Definition splitext (p : string) : string * string :=
  let sepIndex := rfind slash p in
  let dotIndex := rfind dot p in
  if (sepIndex <? dotIndex)%Z
  then let filenameIndex := Z.to_nat (sepIndex + 1) in
       skip_dots p (Z.to_nat dotIndex) filenameIndex
                 (Z.to_nat dotIndex - filenameIndex)
  else (p, EmptyString).

End PosixPath.

(** ** Resource lookup: [__get_resource_path] to [load_icons] *)
Module Resources.
Import PyStr.

(** A loaded [GdkPixbuf.Pixbuf], named by the file it came from. *)
Inductive Pixbuf : Type := PixbufOf (file : string).

(** What the functions read from the interpreter and the file system. *)
Record Env : Type := {
  sys_frozen : bool;                 (* [getattr(sys, 'frozen', False)] *)
  sys_executable : string;           (* [sys.executable] *)
  pympress_dist : option string;     (* where the [pympress] requirement resolves, if installed *)
  os_listdir : string -> Result (list string);
  pixbuf_new_from_file : string -> Result Pixbuf;
  IS_MAC_OS : bool
}.

(** [pkg_resources.resource_filename(req, name)] with the default
    (file-system) provider: the distribution's location joined with the
    pieces of the slash-separated resource name; the lookup of the
    requirement fails when the distribution is not installed. *)
Definition resource_filename (env : Env) (name : string) : Result string :=
  match pympress_dist env with
  | None => Raise DistributionNotFound
  | Some loc =>
      Ok (if name =? "" then loc else PosixPath.join loc (split_char slash name))
  end.

(** [pkg_resources.resource_listdir(req, name)], same provider. *)
Definition resource_listdir (env : Env) (name : string) : Result (list string) :=
  match resource_filename env name with
  | Ok d => os_listdir env d
  | Raise e => Raise e
  end.

Definition __get_resource_path (env : Env) (path_parts : list string)
  : Result string :=
  if sys_frozen env
  then Ok (PosixPath.join (PosixPath.dirname (sys_executable env)) path_parts)
  else resource_filename env (PyStr.join "/" ("pympress" :: path_parts)).

Definition __get_resource_list (env : Env) (path_parts : list string)
  : Result (list string) :=
  if sys_frozen env
  then os_listdir env
         (PosixPath.join (PosixPath.dirname (sys_executable env)) path_parts)
  else resource_listdir env (PyStr.join "/" ("pympress" :: path_parts)).

Definition get_locale_dir (env : Env) : Result string :=
  __get_resource_path env ["share"; "locale"].

(** The path [get_style_provider] hands to [Gtk.CssProvider]. *)
Definition style_css_file (env : Env) : Result string :=
  if IS_MAC_OS env
  then __get_resource_path env ["share"; "css"; "macos.css"]
  else __get_resource_path env ["share"; "css"; "default.css"].

Definition get_icon_pixbuf (env : Env) (name : string) : Result Pixbuf :=
  match __get_resource_path env ["share"; "pixmaps"; name] with
  | Ok f => pixbuf_new_from_file env f
  | Raise e => Raise e
  end.

Definition get_ui_resource_file (env : Env) (name : string) : Result string :=
  __get_resource_path env ["share"; "xml"; name ++ ".glade"].

(** The condition of the comprehension in [list_icons]. *)
Definition is_icon_name (i : string) : bool :=
  (lower (snd (PosixPath.splitext i)) =? ".png") && (take 9 i =? "pympress-").

Definition list_icons (env : Env) : Result (list string) :=
  match __get_resource_list env ["share"; "pixmaps"] with
  | Ok icons => Ok (filter is_icon_name icons)
  | Raise e => Raise e
  end.

(** The body of the [for] loop of [load_icons], on the pair of the list
    being built and the records sent to [logger]. *)
Definition load_icons_body (env : Env) (st : list Pixbuf * list string)
           (icon_name : string) : list Pixbuf * list string :=
  let (icons, logged) := st in
  match get_icon_pixbuf env icon_name with
  | Ok icon_pixbuf => ((icons ++ [icon_pixbuf])%list, logged)
  | Raise _ => (icons, (logged ++ ["Error loading icons"])%list)
  end.

(** [load_icons]: the value returned (or the exception of [list_icons],
    which is outside the [try]) and the log records. *)
Definition load_icons (env : Env) : Result (list Pixbuf) * list string :=
  match list_icons env with
  | Ok names =>
      let (icons, logged) := fold_left (load_icons_body env) names ([], []) in
      (Ok icons, logged)
  | Raise e => (Raise e, [])
  end.

End Resources.

(** ** Statements with effects

    A Python statement reads and writes the state of the process and either
    completes or raises; what it wrote before raising stays written. *)
Module Eff.

Definition M (St A : Type) : Type := St -> Result A * St.

Definition ret {St A : Type} (a : A) : M St A := fun s => (Ok a, s).

Definition bind {St A B : Type} (m : M St A) (k : A -> M St B) : M St B :=
  fun s =>
    match m s with
    | (Ok a, s') => k a s'
    | (Raise e, s') => (Raise e, s')
    end.

Definition raise {St A : Type} (e : Exn) : M St A := fun s => (Raise e, s).

(** [try: m  except <classes>: h] *)
Definition try_except {St A : Type} (m : M St A) (classes : Exn -> bool)
           (h : M St A) : M St A :=
  fun s =>
    match m s with
    | (Raise e, s') => if classes e then h s' else (Raise e, s')
    | r => r
    end.

(** A statement that cannot raise. *)
Definition modify {St : Type} (f : St -> St) : M St unit :=
  fun s => (Ok tt, f s).

Definition when {St : Type} (b : bool) (m : M St unit) : M St unit :=
  if b then m else ret tt.

Module Notations.
Notation "x <- m ;; k" := (bind m (fun x => k))
  (at level 61, m at next level, right associativity).
Notation "m ;;; k" := (bind m (fun _ => k))
  (at level 61, right associativity).
End Notations.

End Eff.

(** ** Screensaver control: [set_screensaver] *)
Module Screensaver.
Import PyStr Eff Eff.Notations.

(** [IS_POSIX], [IS_MAC_OS] and [IS_WINDOWS], fixed when the module is
    imported. *)
Record Platform : Type := {
  IS_POSIX : bool;
  IS_MAC_OS : bool;
  IS_WINDOWS : bool
}.

(** The values the attribute [set_screensaver.dpms_was_enabled] takes:
    [None] at import, a [bool] on Linux and Windows, the [Popen] object of
    the [caffeinate] child on Mac OS. *)
Inductive Recorded : Type :=
| RNone
| RBool (b : bool)
| RPopen (pid : nat).

(** Truth value of the attribute in an [if]. *)
Definition truthy (r : Recorded) : bool :=
  match r with
  | RNone => false
  | RBool b => b
  | RPopen _ => true
  end.

(** [dpms_was_enabled == None] *)
Definition is_None (r : Recorded) : bool :=
  match r with
  | RNone => true
  | _ => false
  end.

Inductive RegType : Type := REG_SZ | REG_DWORD | REG_BINARY.

Definition RegType_eqb (a b : RegType) : bool :=
  match a, b with
  | REG_SZ, REG_SZ | REG_DWORD, REG_DWORD | REG_BINARY, REG_BINARY => true
  | _, _ => false
  end.

(** The part of the operating system the function talks to. *)
Record OS : Type := {
  dpms_on : bool;                       (* X server: DPMS blanking enabled *)
  suspended : list string;              (* windows holding an [xdg-screensaver suspend] *)
  sh_status : string -> Z;              (* exit status of each shell command *)
  sh_history : list string;             (* commands given to [os.system], oldest first *)
  children : list (nat * (list string * option Z));
                                        (* child processes: pid, argv, [returncode] *)
  next_pid : nat;
  getpid : nat;                         (* [os.getpid()] *)
  reg_openable : bool;                  (* [Control Panel\Desktop] can be opened for query and set *)
  ScreenSaveActive : option (RegType * string)   (* the registry value, if present *)
}.

(** The process state the function reads and writes. *)
Record State : Type := {
  os : OS;
  dpms_was_enabled : Recorded;
  logged : list string                  (* records sent to [logger], oldest first *)
}.

Definition M : Type -> Type := Eff.M State.

Definition get_recorded : M Recorded := fun s => (Ok (dpms_was_enabled s), s).

Definition set_recorded (r : Recorded) : M unit :=
  fun s => (Ok tt, {| os := os s; dpms_was_enabled := r; logged := logged s |}).

(** [logger.warning(msg)] and [logger.exception(msg)] *)
Definition log (msg : string) : M unit :=
  fun s => (Ok tt, {| os := os s; dpms_was_enabled := dpms_was_enabled s;
                      logged := (logged s ++ [msg])%list |}).

(** Lift an operation of the operating system. *)
Definition on_os {A : Type} (f : OS -> Result A * OS) : M A :=
  fun s =>
    let (r, o) := f (os s) in
    (r, {| os := o; dpms_was_enabled := dpms_was_enabled s; logged := logged s |}).

(** *** The operating system *)

Definition with_dpms (b : bool) (o : OS) : OS :=
  {| dpms_on := b; suspended := suspended o; sh_status := sh_status o;
     sh_history := sh_history o; children := children o; next_pid := next_pid o;
     getpid := getpid o; reg_openable := reg_openable o;
     ScreenSaveActive := ScreenSaveActive o |}.

Definition with_suspended (l : list string) (o : OS) : OS :=
  {| dpms_on := dpms_on o; suspended := l; sh_status := sh_status o;
     sh_history := sh_history o; children := children o; next_pid := next_pid o;
     getpid := getpid o; reg_openable := reg_openable o;
     ScreenSaveActive := ScreenSaveActive o |}.

Definition with_history (h : list string) (o : OS) : OS :=
  {| dpms_on := dpms_on o; suspended := suspended o; sh_status := sh_status o;
     sh_history := h; children := children o; next_pid := next_pid o;
     getpid := getpid o; reg_openable := reg_openable o;
     ScreenSaveActive := ScreenSaveActive o |}.

Definition with_children (c : list (nat * (list string * option Z))) (n : nat)
           (o : OS) : OS :=
  {| dpms_on := dpms_on o; suspended := suspended o; sh_status := sh_status o;
     sh_history := sh_history o; children := c; next_pid := n;
     getpid := getpid o; reg_openable := reg_openable o;
     ScreenSaveActive := ScreenSaveActive o |}.

Definition with_ScreenSaveActive (v : option (RegType * string)) (o : OS) : OS :=
  {| dpms_on := dpms_on o; suspended := suspended o; sh_status := sh_status o;
     sh_history := sh_history o; children := children o; next_pid := next_pid o;
     getpid := getpid o; reg_openable := reg_openable o;
     ScreenSaveActive := v |}.

(** What a shell command does when it succeeds. *)
Definition run_command (cmd : string) (o : OS) : OS :=
  if cmd =? "xset -dpms" then with_dpms false o
  else if cmd =? "xset +dpms" then with_dpms true o
  else if startswith "xdg-screensaver suspend " cmd
  then with_suspended (drop 24 cmd :: suspended o) o
  else if startswith "xdg-screensaver resume " cmd
  then with_suspended
         (filter (fun w => negb (w =? drop 23 cmd)) (suspended o)) o
  else o.

(** [os.system(cmd)]: the command is run, takes effect when its exit
    status is zero, and the status is returned. *)
Definition os_system (cmd : string) : M Z :=
  on_os (fun o =>
    let status := sh_status o cmd in
    let o' := with_history (sh_history o ++ [cmd])%list o in
    (Ok status, if (status =? 0)%Z then run_command cmd o' else o')).

(** The lines [os.popen("xset q")] gives back. *)
Definition xset_q (o : OS) : list string :=
  [ "Screen Saver:" ++ nl;
    "  prefer blanking:  yes    allow exposures:  yes" ++ nl;
    "  timeout:  600    cycle:  600" ++ nl;
    "DPMS (Energy Star):" ++ nl;
    "  Standby: 600    Suspend: 600    Off: 600" ++ nl;
    (if dpms_on o then "  DPMS is Enabled" else "  DPMS is Disabled") ++ nl ].

Definition popen_xset_q : M (list string) :=
  on_os (fun o => (Ok (xset_q o), o)).

(** [subprocess.Popen(argv)]: a new running child. *)
Definition Popen (argv : list string) : M nat :=
  on_os (fun o =>
    (Ok (next_pid o),
     with_children (children o ++ [(next_pid o, (argv, None))])%list
                   (S (next_pid o)) o)).

Fixpoint returncode (pid : nat) (c : list (nat * (list string * option Z)))
  : option Z :=
  match c with
  | [] => None
  | (p, (_, rc)) :: rest => if p =? pid then rc else returncode pid rest
  end%nat.

(** [Popen.poll()]: [None] while the child runs, its return code after. *)
Definition poll (pid : nat) : M (option Z) :=
  on_os (fun o => (Ok (returncode pid (children o)), o)).

(** [Popen.kill()]: a running child ends with [-SIGKILL]. *)
Definition kill (pid : nat) : M unit :=
  on_os (fun o =>
    (Ok tt,
     with_children
       (map (fun c : nat * (list string * option Z) =>
               let '(p, (argv, rc)) := c in
               if (p =? pid)%nat
               then (p, (argv, match rc with None => Some (-9)%Z | _ => rc end))
               else c)
            (children o))
       (next_pid o) o)).

(** Truth value of what [poll()] returned. *)
Definition poll_truthy (rc : option Z) : bool :=
  match rc with
  | None => false
  | Some z => negb (z =? 0)%Z
  end.

(** [winreg.OpenKey(HKEY_CURRENT_USER, 'Control Panel\Desktop', 0,
    KEY_QUERY_VALUE|KEY_SET_VALUE)] *)
Definition OpenKey : M unit :=
  on_os (fun o => (if reg_openable o then Ok tt else Raise PermissionError, o)).

(** [winreg.QueryValueEx(key, "ScreenSaveActive")] *)
Definition QueryValueEx : M (string * RegType) :=
  on_os (fun o =>
    (match ScreenSaveActive o with
     | Some (t, v) => Ok (v, t)
     | None => Raise (OSError "The system cannot find the file specified")
     end, o)).

(** [winreg.SetValueEx(key, "ScreenSaveActive", 0, REG_SZ, value)] *)
Definition SetValueEx (value : string) : M unit :=
  on_os (fun o => (Ok tt, with_ScreenSaveActive (Some (REG_SZ, value)) o)).

(** *** [set_screensaver] *)

(** The [for] loop over the lines of [xset q]; [dpms_status] starts at
    ["Disabled"]. *)
Fixpoint read_dpms_status (lines : list string) : string :=
  match lines with
  | [] => "Disabled"
  | line :: rest =>
      if contains "DPMS is" line then last (words line) ""
      else read_dpms_status rest
  end.

Definition mac_branch (must_disable : bool) : M unit :=
  r <- get_recorded ;;
  if must_disable then
    respawn <- (if is_None r then ret true
                else match r with
                     | RPopen pid => rc <- poll pid ;; ret (poll_truthy rc)
                     | _ => raise AttributeError
                     end) ;;
    if respawn : bool then
      me <- on_os (fun o => (Ok (getpid o), o)) ;;
      pid <- Popen ["caffeinate"; "-d"; "-w"; str_of_nat me] ;;
      set_recorded (RPopen pid)
    else ret tt
  else
    if truthy r then
      match r with
      | RPopen pid =>
          rc <- poll pid ;;
          if negb (poll_truthy rc) then
            kill pid ;;;
            poll pid ;;;
            set_recorded RNone
          else ret tt
      | _ => raise AttributeError
      end
    else ret tt.

Definition posix_branch (must_disable : bool) (xid : nat) : M unit :=
  let cmd := if must_disable then "suspend" else "resume" in
  status <- os_system ("xdg-screensaver " ++ cmd ++ " " ++ str_of_nat xid) ;;
  when (negb (status =? 0)%Z)
       (log ("Could not set screensaver status: got status " ++ str_of_Z status)) ;;;
  if must_disable then
    lines <- popen_xset_q ;;
    let dpms_status := read_dpms_status lines in
    if dpms_status =? "Enabled" then
      set_recorded (RBool true) ;;;
      status <- os_system "xset -dpms" ;;
      when (negb (status =? 0)%Z)
           (log ("Could not disable DPMS screen blanking: got status "
                 ++ str_of_Z status))
    else set_recorded (RBool false)
  else
    r <- get_recorded ;;
    if truthy r then
      status <- os_system "xset +dpms" ;;
      when (negb (status =? 0)%Z)
           (log ("Could not enable DPMS screen blanking: got status "
                 ++ str_of_Z status))
    else ret tt.

Definition windows_branch (must_disable : bool) : M unit :=
  try_except
    (OpenKey ;;;
     if must_disable then
       vt <- QueryValueEx ;;
       let (value, type) := vt : string * RegType in
       (if RegType_eqb type REG_SZ then ret tt else raise AssertionError) ;;;
       set_recorded (RBool (value =? "1")) ;;;
       r <- get_recorded ;;
       if truthy r then SetValueEx "0" else ret tt
     else
       r <- get_recorded ;;
       if truthy r then SetValueEx "1" else ret tt)
    is_OSError
    (log "access denied when trying to access screen saver settings in registry!").

(** [set_screensaver(must_disable, window)]; [xid] is what
    [window.get_xid()] returns. *)
Definition set_screensaver (pf : Platform) (must_disable : bool) (xid : nat)
  : M unit :=
  if IS_MAC_OS pf then mac_branch must_disable
  else if IS_POSIX pf then posix_branch must_disable xid
  else if IS_WINDOWS pf then windows_branch must_disable
  else log "Unsupported OS: can't enable/disable screensaver".

(** The attribute as the module leaves it at import. *)
Definition initial (o : OS) : State :=
  {| os := o; dpms_was_enabled := RNone; logged := [] |}.

End Screensaver.

(** ** The debounced file watcher: class [FileWatcher] *)
Module FileWatcher.
Import PyStr Eff Eff.Notations.

(** Argument values a caller binds to its callback. *)
Inductive PyVal : Type :=
| PyNone
| PyBool (b : bool)
| PyInt (z : Z)
| PyString (s : string).

(** Truth value of a Python value in a condition. *)
Definition py_truthy (v : PyVal) : bool :=
  match v with
  | PyNone => false
  | PyBool b => b
  | PyInt z => negb (z =? 0)%Z
  | PyString s => negb (s =? "")
  end.

(** [callback, *args, **kwargs] as one scheduling call binds them. *)
Record Bound : Type := {
  callback : string;
  args : list PyVal;
  kwargs : list (string * PyVal)
}.

(** A [watchdog] file-system event. *)
Record Event : Type := { src_path : string }.

(** The attribute [cls.monitor.on_modified]: the method inherited from
    [FileSystemEventHandler], which does nothing, or the [lambda] that
    [watch_file] stores, with the [path] and the call it closes over. *)
Inductive Handler : Type :=
| Inherited
| Lambda (path : string) (bound : Bound).

(** What GLib keeps of a scheduling call and hands to [cls.call] when the
    source expires: the positional user data, [callback, *args].
    [GLib.timeout_add(interval, function, *user_data, **kwargs)] reads the
    keyword [priority] alone from its keyword arguments and passes none of
    them on. *)
Definition user_data (b : Bound) : Bound :=
  {| callback := callback b; args := args b; kwargs := [] |}.

(** A timeout source attached to the GLib main loop by
    [GLib.timeout_add(interval, cls.call, callback, *args, **kwargs)];
    [data] is the user data [cls.call] is run with. *)
Record Source : Type := {
  source_id : nat;
  interval : nat;
  due : nat;
  data : Bound
}.

Record State : Type := {
  timeout : nat;                       (* [cls.timeout] *)
  on_modified : Handler;               (* [cls.monitor.on_modified] *)
  observer_alive : bool;               (* [cls.observer.is_alive()] *)
  observer_starts : nat;               (* how often [cls.observer.start()] has run *)
  observer_watches : list string;      (* directories scheduled with [cls.monitor] *)
  glib_next_id : nat;                  (* the id the next source gets *)
  glib_sources : list Source;          (* attached sources, oldest first *)
  clock : nat;                         (* milliseconds *)
  watchable : string -> bool;          (* directories the observer can open *)
  calls : list Bound;                  (* callback invocations, oldest first *)
  stdout : list string;                (* lines written by [print] *)
  logged : list string                 (* records sent to [logger] *)
}.

Definition M : Type -> Type := Eff.M State.

Definition gets {A : Type} (f : State -> A) : M A := fun s => (Ok (f s), s).

Definition set_timeout (t : nat) (s : State) : State :=
  {| timeout := t; on_modified := on_modified s;
     observer_alive := observer_alive s; observer_starts := observer_starts s;
     observer_watches := observer_watches s; glib_next_id := glib_next_id s;
     glib_sources := glib_sources s; clock := clock s; watchable := watchable s;
     calls := calls s; stdout := stdout s; logged := logged s |}.

Definition set_on_modified (h : Handler) (s : State) : State :=
  {| timeout := timeout s; on_modified := h;
     observer_alive := observer_alive s; observer_starts := observer_starts s;
     observer_watches := observer_watches s; glib_next_id := glib_next_id s;
     glib_sources := glib_sources s; clock := clock s; watchable := watchable s;
     calls := calls s; stdout := stdout s; logged := logged s |}.

Definition set_observer (alive : bool) (starts : nat) (watches : list string)
           (s : State) : State :=
  {| timeout := timeout s; on_modified := on_modified s;
     observer_alive := alive; observer_starts := starts;
     observer_watches := watches; glib_next_id := glib_next_id s;
     glib_sources := glib_sources s; clock := clock s; watchable := watchable s;
     calls := calls s; stdout := stdout s; logged := logged s |}.

Definition set_glib (next : nat) (sources : list Source) (s : State) : State :=
  {| timeout := timeout s; on_modified := on_modified s;
     observer_alive := observer_alive s; observer_starts := observer_starts s;
     observer_watches := observer_watches s; glib_next_id := next;
     glib_sources := sources; clock := clock s; watchable := watchable s;
     calls := calls s; stdout := stdout s; logged := logged s |}.

Definition set_clock (t : nat) (s : State) : State :=
  {| timeout := timeout s; on_modified := on_modified s;
     observer_alive := observer_alive s; observer_starts := observer_starts s;
     observer_watches := observer_watches s; glib_next_id := glib_next_id s;
     glib_sources := glib_sources s; clock := t; watchable := watchable s;
     calls := calls s; stdout := stdout s; logged := logged s |}.

Definition set_calls (c : list Bound) (s : State) : State :=
  {| timeout := timeout s; on_modified := on_modified s;
     observer_alive := observer_alive s; observer_starts := observer_starts s;
     observer_watches := observer_watches s; glib_next_id := glib_next_id s;
     glib_sources := glib_sources s; clock := clock s; watchable := watchable s;
     calls := c; stdout := stdout s; logged := logged s |}.

Definition set_stdout (o : list string) (s : State) : State :=
  {| timeout := timeout s; on_modified := on_modified s;
     observer_alive := observer_alive s; observer_starts := observer_starts s;
     observer_watches := observer_watches s; glib_next_id := glib_next_id s;
     glib_sources := glib_sources s; clock := clock s; watchable := watchable s;
     calls := calls s; stdout := o; logged := logged s |}.

(** *** GLib timeouts *)

(** [GLib.timeout_add(interval, cls.call, callback, *args, **kwargs)]:
    attach a source that expires [interval] ms from now and holds the
    positional user data; its id is returned.  (The priority a [priority]
    keyword would set orders sources that expire together; the class has at
    most one.) *)
Definition timeout_add (ms : nat) (b : Bound) : M nat :=
  fun s =>
    let id := glib_next_id s in
    (Ok id,
     set_glib (S id)
              (glib_sources s ++
               [{| source_id := id; interval := ms; due := clock s + ms;
                   data := user_data b |}])
              s).

(** [GLib.Source.remove(id)] *)
Definition source_remove (id : nat) : M unit :=
  modify (fun s =>
    set_glib (glib_next_id s)
             (filter (fun src => negb (source_id src =? id)%nat) (glib_sources s))
             s).

(** *** The watchdog observer *)

(** [cls.observer.start()]: the observer is one thread, and a thread is
    started once; [start()] on a thread that has been started before raises
    [RuntimeError]. *)
Definition observer_start : M unit :=
  fun s =>
    if (observer_starts s =? 0)%nat
    then (Ok tt, set_observer true 1 (observer_watches s) s)
    else (Raise RuntimeError, s).

Definition observer_stop : M unit :=
  modify (fun s => set_observer false (observer_starts s) (observer_watches s) s).

Definition observer_unschedule_all : M unit :=
  modify (fun s => set_observer (observer_alive s) (observer_starts s) [] s).

(** [cls.observer.schedule(cls.monitor, directory)]: opening a directory
    that is missing or cannot be read raises [OSError]. *)
Definition observer_schedule (directory : string) : M unit :=
  fun s =>
    if watchable s directory
    then (Ok tt,
          set_observer (observer_alive s) (observer_starts s)
                       (observer_watches s ++ [directory]) s)
    else (Raise (OSError "No such file or directory"), s).

(** [print(line)] *)
Definition print (line : string) : M unit :=
  modify (fun s => set_stdout (stdout s ++ [line]) s).

(** Running the caller's callback: the call is recorded. *)
Definition invoke (b : Bound) : M unit :=
  modify (fun s => set_calls (calls s ++ [b]) s).

(** *** The class methods *)

Definition enqueue (b : Bound) : M unit :=
  t <- gets timeout ;;
  when (negb (t =? 0)%nat) (source_remove t) ;;;
  id <- timeout_add 200 b ;;
  modify (set_timeout id).

(** [call] has no [return]: GLib receives [None]. *)
Definition call (b : Bound) : M PyVal :=
  t <- gets timeout ;;
  when (negb (t =? 0)%nat) (modify (set_timeout 0)) ;;;
  invoke b ;;;
  ret PyNone.

Definition stop_watching : M unit := observer_unschedule_all.

Definition start_daemon : M unit :=
  alive <- gets observer_alive ;;
  when (negb alive) observer_start.

(** The [lambda] stored in [cls.monitor.on_modified], applied to an event. *)
Definition run_handler (h : Handler) (evt : Event) : M unit :=
  match h with
  | Inherited => ret tt
  | Lambda path b => if src_path evt =? path then enqueue b else ret tt
  end.

Definition watch_file (path : string) (b : Bound) : M unit :=
  start_daemon ;;;
  stop_watching ;;;
  let directory := PosixPath.dirname path in
  modify (set_on_modified (Lambda path b)) ;;;
  try_except (observer_schedule directory)
             is_OSError
             (print ("Impossible to open dir at " ++ directory)).

(** [stop_daemon]: once [stop()] has run the thread is no longer alive, and
    the [while] loop that joins it has nothing to wait for. *)
Definition stop_daemon (wait : bool) : M unit :=
  observer_unschedule_all ;;;
  alive <- gets observer_alive ;;
  when alive observer_stop.

(** *** What the environment does with the class *)

(** A source that has expired is dispatched: GLib runs [cls.call] with the
    bound arguments and destroys the source unless the call returned a
    true value, in which case it is armed again. *)
Definition dispatch (src : Source) : M unit :=
  r <- call (data src) ;;
  if py_truthy r
  then modify (fun s =>
         set_glib (glib_next_id s)
                  (map (fun x => if (source_id x =? source_id src)%nat
                                 then {| source_id := source_id x;
                                         interval := interval x;
                                         due := clock s + interval x;
                                         data := data x |}
                                 else x)
                       (glib_sources s)) s)
  else source_remove (source_id src).

Definition attached (id : nat) (s : State) : bool :=
  existsb (fun x => (source_id x =? id)%nat) (glib_sources s).

Fixpoint dispatch_expired (l : list Source) : M unit :=
  match l with
  | [] => ret tt
  | src :: rest =>
      (now <- gets clock ;;
       still <- gets (attached (source_id src)) ;;
       when ((due src <=? now)%nat && still) (dispatch src)) ;;;
      dispatch_expired rest
  end.

(** [dt] milliseconds pass and the main loop runs the sources that have
    expired by then, oldest first. *)
Definition advance (dt : nat) : M unit :=
  modify (fun s => set_clock (clock s + dt) s) ;;;
  srcs <- gets glib_sources ;;
  dispatch_expired srcs.

Fixpoint notify_watches (ws : list string) (evt : Event) : M unit :=
  match ws with
  | [] => ret tt
  | w :: rest =>
      (if w =? PosixPath.dirname (src_path evt)
       then h <- gets on_modified ;; run_handler h evt
       else ret tt) ;;;
      notify_watches rest evt
  end.

(** The file at [p] is modified: a running observer hands the event to
    the handler of every watch on the directory that holds [p]. *)
Definition file_modified (p : string) : M unit :=
  alive <- gets observer_alive ;;
  ws <- gets observer_watches ;;
  if alive : bool then notify_watches ws {| src_path := p |} else ret tt.

(** The class as Python creates it: no timeout, a fresh observer and
    handler, an idle main loop. *)
Definition initial (fs : string -> bool) : State :=
  {| timeout := 0; on_modified := Inherited;
     observer_alive := false; observer_starts := 0; observer_watches := [];
     glib_next_id := 1; glib_sources := []; clock := 0; watchable := fs;
     calls := []; stdout := []; logged := [] |}.

(** The state a statement leaves. *)
Definition exec {A : Type} (m : M A) (s : State) : State := snd (m s).

End FileWatcher.

(** ** Vocabulary of the statements *)

(** [out] keeps some of the elements of [l], in their order. *)
Inductive Subseq {A : Type} : list A -> list A -> Prop :=
| Subseq_nil : Subseq [] []
| Subseq_skip : forall x out l, Subseq out l -> Subseq out (x :: l)
| Subseq_keep : forall x out l, Subseq out l -> Subseq (x :: out) (x :: l).

Module PathSpec.
Import PyStr.

(** The character [c] does not occur in [s]. *)
Definition free_of (c : ascii) (s : string) : Prop :=
  forall a b, s <> a ++ String c b.

(** A directory written so that a file name can follow it directly: empty
    (the current directory) or ending in a slash. *)
Definition dir_prefix (d : string) : string :=
  if (d =? "") || endswith_char slash d then d else d ++ "/".

(** A resource name is relative and well formed when none of the
    directories it goes through is the empty string: it has no leading and
    no doubled slash. *)
Definition valid_resource_name (name : string) : bool :=
  forallb (fun d => negb (d =? "")) (removelast (split_char slash name)).

(** Components [os.path.join] puts one after the other with one slash in
    between: none restarts the path, and all but the last are non-empty and
    bring no slash of their own at the end. *)
Fixpoint joinable (parts : list string) : bool :=
  match parts with
  | [] => false
  | [p] => negb (startswith "/" p)
  | p :: rest =>
      negb (p =? "") && negb (startswith "/" p) && negb (endswith_char slash p)
      && joinable rest
  end.

(** The icons [load_icons] is expected to return: those that load, in
    the order of the listing. *)
Definition loadable (env : Resources.Env) (names : list string)
  : list Resources.Pixbuf :=
  flat_map (fun n => match Resources.get_icon_pixbuf env n with
                     | Ok p => [p]
                     | Raise _ => []
                     end) names.

Definition failures (env : Resources.Env) (names : list string) : nat :=
  List.length (filter (fun n => match Resources.get_icon_pixbuf env n with
                                | Ok _ => false
                                | Raise _ => true
                                end) names).

(** Examples: the program installed under [site-packages], and frozen
    under [/opt/pympress]. *)
Definition installed : Resources.Env :=
  {| Resources.sys_frozen := false;
     Resources.sys_executable := "/usr/bin/python3";
     Resources.pympress_dist := Some "/usr/lib/python3/site-packages";
     Resources.os_listdir := fun _ => Ok [];
     Resources.pixbuf_new_from_file := fun f => Ok (Resources.PixbufOf f);
     Resources.IS_MAC_OS := false |}.

Definition frozen : Resources.Env :=
  {| Resources.sys_frozen := true;
     Resources.sys_executable := "/opt/pympress/pympress";
     Resources.pympress_dist := None;
     Resources.os_listdir := fun _ => Ok [];
     Resources.pixbuf_new_from_file := fun f => Ok (Resources.PixbufOf f);
     Resources.IS_MAC_OS := false |}.

End PathSpec.

Module ScreensaverSpec.
Import Screensaver.

Definition linux : Platform :=
  {| IS_POSIX := true; IS_MAC_OS := false; IS_WINDOWS := false |}.
Definition macos : Platform :=
  {| IS_POSIX := true; IS_MAC_OS := true; IS_WINDOWS := false |}.
Definition windows : Platform :=
  {| IS_POSIX := false; IS_MAC_OS := false; IS_WINDOWS := true |}.

(** A desktop on which every command succeeds: DPMS is on, the registry
    holds [ScreenSaveActive = "1"], no child runs, window 42 holds a
    suspension left by an earlier program. *)
Definition desktop : OS :=
  {| dpms_on := true; suspended := ["42"]; sh_status := fun _ => 0%Z;
     sh_history := []; children := []; next_pid := 100; getpid := 7;
     reg_openable := true; ScreenSaveActive := Some (REG_SZ, "1") |}.



End ScreensaverSpec.

Module WatcherSpec.
Import Eff Eff.Notations FileWatcher.

(** The timeout and the main loop agree: the loop holds no source of the
    class, or the one 200 ms timer whose id is in [cls.timeout]; GLib never
    hands out the id 0. *)
Definition consistent (s : State) : Prop :=
  glib_next_id s <> 0 /\
  match glib_sources s with
  | [] => True
  | [src] => source_id src = timeout s /\ timeout s <> 0 /\ interval src = 200
  | _ :: _ :: _ => False
  end.

(** The states the class goes through: Python creates it, the program
    calls its methods, files are modified and time passes. *)
Inductive Reachable : State -> Prop :=
| reach_initial : forall fs, Reachable (initial fs)
| reach_watch_file : forall s path b,
    Reachable s -> Reachable (exec (watch_file path b) s)
| reach_stop_watching : forall s,
    Reachable s -> Reachable (exec stop_watching s)
| reach_stop_daemon : forall s wait,
    Reachable s -> Reachable (exec (stop_daemon wait) s)
| reach_enqueue : forall s b,
    Reachable s -> Reachable (exec (enqueue b) s)
| reach_file_modified : forall s p,
    Reachable s -> Reachable (exec (file_modified p) s)
| reach_advance : forall s dt,
    Reachable s -> Reachable (exec (advance dt) s).

(** The observer can serve a new watch: its thread runs, or has never been
    started.  (Once stopped, it cannot be started again.) *)
Definition startable (s : State) : bool :=
  observer_alive s || (observer_starts s =? 0)%nat.

(** [path] is watched with the call [b]: the observer runs, holds the
    one watch on the directory of [path], and the handler is the filter
    for [path]. *)
Definition watching (s : State) (path : string) (b : Bound) : Prop :=
  observer_alive s = true /\
  observer_watches s = [PosixPath.dirname path] /\
  on_modified s = Lambda path b.

(** A timer for the call [b] is pending and expires at [deadline]. *)
Definition armed (s : State) (b : Bound) (deadline : nat) : Prop :=
  glib_next_id s <> 0 /\ timeout s <> 0 /\
  glib_sources s
  = [{| source_id := timeout s; interval := 200; due := deadline; data := b |}].

(** The part of the state the main loop never touches. *)
Definition same_watch (s s' : State) : Prop :=
  observer_alive s' = observer_alive s /\
  observer_starts s' = observer_starts s /\
  observer_watches s' = observer_watches s /\
  on_modified s' = on_modified s /\
  watchable s' = watchable s /\
  stdout s' = stdout s /\
  logged s' = logged s.

(** More modifications of [path], each [gap] ms after the one before. *)
Fixpoint modified_again (path : string) (gaps : list nat) : M unit :=
  match gaps with
  | [] => ret tt
  | gap :: rest =>
      advance gap ;;; file_modified path ;;; modified_again path rest
  end.

(** A burst of [1 + length gaps] modifications of [path]. *)
Definition burst (path : string) (gaps : list nat) : M unit :=
  file_modified path ;;; modified_again path gaps.

(** More scheduling calls, each with its own bound call, [gap] ms after
    the one before. *)
Fixpoint enqueue_again (more : list (nat * Bound)) : M unit :=
  match more with
  | [] => ret tt
  | (gap, b) :: rest => advance gap ;;; enqueue b ;;; enqueue_again rest
  end.

(** What happens around the class once it is set up. *)
Inductive Happening : Type :=
| Modified (p : string)
| Elapse (dt : nat).

Definition happen (h : Happening) : M unit :=
  match h with
  | Modified p => file_modified p
  | Elapse dt => advance dt
  end.

Fixpoint happen_all (hs : list Happening) : M unit :=
  match hs with
  | [] => ret tt
  | h :: rest => happen h ;;; happen_all rest
  end.

Definition is_elapse (h : Happening) : bool :=
  match h with
  | Elapse _ => true
  | Modified _ => false
  end.

(** The only modifications among [hs] are modifications of [p]. *)
Definition only_modifies (p : string) (hs : list Happening) : Prop :=
  Forall (fun h => match h with
                   | Modified q => q = p
                   | Elapse _ => True
                   end) hs.

(** Among [hs], starting at time [now], the main loop runs at or after
    [deadline]: some [Elapse] ends there or later. *)
Fixpoint expired_by (deadline now : nat) (hs : list Happening) : bool :=
  match hs with
  | [] => false
  | Modified _ :: rest => expired_by deadline now rest
  | Elapse dt :: rest =>
      (deadline <=? now + dt)%nat || expired_by deadline (now + dt) rest
  end.

(** In [s'], reached from [s] with no callback run, the timer for the call
    [b] that expires at [deadline] is still pending.  When [hs] follows,
    its modifications schedule nothing; if the main loop runs at or after
    the deadline while [hs] lasts, the call has run exactly once by the end
    and the timer is gone; if not, nothing has run and the timer is still
    pending. *)
Definition timer_survives (s s' : State) (b : Bound) (deadline : nat)
           (hs : list Happening) : Prop :=
  armed s' b deadline /\
  calls s' = calls s /\
  exec (happen_all hs) s' = exec (happen_all (filter is_elapse hs)) s' /\
  let s2 := exec (happen_all hs) s' in
  if expired_by deadline (clock s) hs
  then calls s2 = (calls s ++ [b])%list /\
       glib_sources s2 = [] /\ timeout s2 = 0
  else calls s2 = calls s /\ armed s2 b deadline.

(** Example: a home directory that can be watched and nothing else. *)
Definition home_only (d : string) : bool := d =? "/home/u".

Definition reload (n : Z) : Bound :=
  {| callback := "reload_document"; args := [PyInt n]; kwargs := [] |}.

(** The same call bound with a keyword argument. *)
Definition reload_forced (n : Z) : Bound :=
  {| callback := "reload_document"; args := [PyInt n];
     kwargs := [("force", PyBool true)] |}.

(** [/home/u/talk.pdf] is watched. *)
Definition talk_watched : State :=
  exec (watch_file "/home/u/talk.pdf" (reload 1)) (initial home_only).

(** [/home/u/talk.pdf] is watched and has just been modified. *)
Definition talk_modified : State :=
  exec (watch_file "/home/u/talk.pdf" (reload 1) ;;;
        file_modified "/home/u/talk.pdf")
       (initial home_only).


End WatcherSpec.

(** ** Vocabulary of the further statements *)
Module MoreSpec.
Import PyStr Screensaver ScreensaverSpec.

(** The warning [set_screensaver] logs for a shell command that exits with
    a status other than zero. *)
Definition warning_of (cmd : string) (status : Z) : string :=
  (if startswith "xdg-screensaver" cmd
   then "Could not set screensaver status: got status "
   else if cmd =? "xset -dpms"
        then "Could not disable DPMS screen blanking: got status "
        else "Could not enable DPMS screen blanking: got status ")
  ++ str_of_Z status.

(** The warnings for those of [cmds] that fail on [o], in order. *)
Definition warnings (o : OS) (cmds : list string) : list string :=
  map (fun c => warning_of c (sh_status o c))
      (filter (fun c => negb (sh_status o c =? 0)%Z) cmds).

(** No child process has the pid the next child will get. *)
Definition fresh_pid (o : OS) : Prop :=
  Forall (fun c : nat * (list string * option Z) => fst c <> next_pid o)
         (children o).

(** The child [Popen(['caffeinate', '-d', '-w', str(os.getpid())])] starts. *)
Definition caffeinate (o : OS) (rc : option Z)
  : nat * (list string * option Z) :=
  (next_pid o, (["caffeinate"; "-d"; "-w"; str_of_nat (getpid o)], rc)).

(** Example: the desktop with a registry key that cannot be opened. *)
Definition locked_desktop : OS :=
  {| dpms_on := true; suspended := []; sh_status := fun _ => 0%Z;
     sh_history := []; children := []; next_pid := 100; getpid := 7;
     reg_openable := false; ScreenSaveActive := Some (REG_SZ, "1") |}.

(** Example: the value [ScreenSaveActive] stored as a number. *)
Definition dword_desktop : OS :=
  {| dpms_on := true; suspended := []; sh_status := fun _ => 0%Z;
     sh_history := []; children := []; next_pid := 100; getpid := 7;
     reg_openable := true; ScreenSaveActive := Some (REG_DWORD, "1") |}.

End MoreSpec.

Module WatcherMore.
Import Eff Eff.Notations FileWatcher WatcherSpec.

(** Nothing is watched, or one path is, with the handler that filters
    for it. *)
Definition single_watch (s : State) : Prop :=
  observer_watches s = [] \/ exists path b, watching s path b.

(** None of the modifications among [hs] is a modification of [path]. *)
Definition never_modifies (path : string) (hs : list Happening) : Prop :=
  Forall (fun h => match h with
                   | Modified q => q <> path
                   | Elapse _ => True
                   end) hs.

End WatcherMore.

Module ResourcesMore.
Import PyStr Resources.

(** Example: frozen under [/opt/pympress], with three entries in the
    pixmaps directory, one of which is an icon that does not load. *)
Definition frozen_with_icons : Env :=
  {| sys_frozen := true;
     sys_executable := "/opt/pympress/pympress";
     pympress_dist := None;
     os_listdir := fun d =>
       if d =? "/opt/pympress/share/pixmaps"
       then Ok ["pympress-16.png"; "README"; "pympress-32.PNG"]
       else Raise (OSError "No such file or directory");
     pixbuf_new_from_file := fun f =>
       if f =? "/opt/pympress/share/pixmaps/pympress-32.PNG"
       then Raise (GLibError "Unrecognized image file format")
       else Ok (PixbufOf f);
     IS_MAC_OS := false |}.

End ResourcesMore.

(** * Properties *)

(** ** Strings and paths *)
Section StringFacts.
Import PyStr PathSpec.

Lemma append_nil_r (s : string) : s ++ "" = s.
Proof. induction s as [|a s IH]; simpl; [reflexivity | now rewrite IH]. Qed.

Lemma append_assoc (a b c : string) : (a ++ b) ++ c = a ++ (b ++ c).
Proof. induction a as [|x a IH]; simpl; [reflexivity | now rewrite IH]. Qed.

Lemma take_drop (n : nat) (s : string) : take n s ++ drop n s = s.
Proof.
  revert s; induction n as [|n IH]; intros [|a s]; simpl; try reflexivity.
  now rewrite IH.
Qed.

Lemma take_app_exact (p rest : string) :
  take (String.length p) (p ++ rest) = p.
Proof. induction p as [|a p IH]; simpl; [now destruct rest | now rewrite IH]. Qed.

(** [startswith] of a one-character prefix looks at the first character. *)
Lemma startswith_slash_cons (a : ascii) (s : string) :
  startswith "/" (String a s) = Ascii.eqb a slash.
Proof.
  unfold startswith.
  change (String.prefix "/" (String a s))
    with (if ascii_dec "/" a then String.prefix "" s else false).
  destruct (ascii_dec "/"%char a) as [E|n].
  - subst a. unfold slash. rewrite Ascii.eqb_refl. now destruct s.
  - symmetry; apply Ascii.eqb_neq; unfold slash; congruence.
Qed.

Lemma endswith_char_app (c : ascii) (a b : string) :
  b <> "" -> endswith_char c (a ++ b) = endswith_char c b.
Proof.
  intros Hb. induction a as [|x a IH]; simpl; [reflexivity|].
  rewrite IH. destruct (a ++ b) eqn:E; [|reflexivity].
  destruct a; simpl in E; [congruence | discriminate].
Qed.

Lemma app_eq_empty (a b : string) : a ++ b = "" -> a = "" /\ b = "".
Proof. destruct a; simpl; [auto | discriminate]. Qed.

(** *** [split] and [join] *)

Lemma split_char_nonempty (c : ascii) (s : string) : split_char c s <> [].
Proof.
  induction s as [|a s IH]; simpl; [discriminate|].
  destruct (Ascii.eqb a c); [discriminate|].
  destruct (split_char c s); [contradiction | discriminate].
Qed.

Lemma split_char_app_sep (c : ascii) (a b : string) :
  split_char c (a ++ String c b) = (split_char c a ++ split_char c b)%list.
Proof.
  induction a as [|x a IH]; simpl.
  - now rewrite Ascii.eqb_refl.
  - destruct (Ascii.eqb x c); [now rewrite IH|].
    rewrite IH. pose proof (split_char_nonempty c a) as Hne.
    destruct (split_char c a); [contradiction | reflexivity].
Qed.

Lemma free_of_cons (c x : ascii) (s : string) :
  x <> c -> free_of c s -> free_of c (String x s).
Proof.
  intros Hx Hs [|y a] b; simpl; intros E; injection E as E1 E2.
  - congruence.
  - now apply (Hs a b).
Qed.

Lemma free_of_empty (c : ascii) : free_of c "".
Proof. intros [|y a] b; simpl; discriminate. Qed.

Lemma split_char_free (c : ascii) (s : string) :
  Forall (free_of c) (split_char c s).
Proof.
  induction s as [|a s IH]; simpl.
  - constructor; [apply free_of_empty | constructor].
  - destruct (Ascii.eqb_spec a c) as [->|Hne].
    + constructor; [apply free_of_empty | exact IH].
    + destruct (split_char c s) as [|h t].
      * constructor; [|constructor].
        apply free_of_cons; [exact Hne | apply free_of_empty].
      * inversion IH; subst. constructor; [|assumption].
        now apply free_of_cons.
Qed.

Lemma free_of_startswith (s : string) :
  free_of slash s -> startswith "/" s = false.
Proof.
  intros H. destruct s as [|a s]; [reflexivity|].
  rewrite startswith_slash_cons. apply Ascii.eqb_neq. intros ->.
  now apply (H "" s).
Qed.

Lemma free_of_endswith (s : string) :
  free_of slash s -> endswith_char slash s = false.
Proof.
  induction s as [|a s IH]; intros H; [reflexivity|].
  destruct s as [|b s].
  - simpl. apply Ascii.eqb_neq. intros ->. now apply (H "" "").
  - change (endswith_char slash (String a (String b s)))
      with (endswith_char slash (String b s)).
    apply IH. intros x y E. apply (H (String a x) y). simpl. now rewrite E.
Qed.

Lemma join_split_char (s : string) :
  PyStr.join "/" (split_char slash s) = s.
Proof.
  induction s as [|a s IH]; [reflexivity|].
  simpl split_char. destruct (Ascii.eqb_spec a slash) as [->|Hne].
  - pose proof (split_char_nonempty slash s) as Hn.
    destruct (split_char slash s) as [|h t] eqn:E; [contradiction|].
    change (PyStr.join "/" ("" :: h :: t))
      with ("" ++ "/" ++ PyStr.join "/" (h :: t)).
    now rewrite IH.
  - pose proof (split_char_nonempty slash s) as Hn.
    destruct (split_char slash s) as [|h t] eqn:E; [contradiction|].
    destruct t as [|h' t].
    + simpl in *. now rewrite IH.
    + change (PyStr.join "/" (String a h :: h' :: t))
        with (String a (h ++ "/" ++ PyStr.join "/" (h' :: t))).
      change (PyStr.join "/" (h :: h' :: t))
        with (h ++ "/" ++ PyStr.join "/" (h' :: t)) in IH.
      now rewrite IH.
Qed.

End StringFacts.

(** ** Resource lookup *)
Section ResourceFacts.
Import PyStr PathSpec Resources.

Lemma split_char_of_free (c : ascii) (t : string) :
  free_of c t -> split_char c t = [t].
Proof.
  induction t as [|a t IH]; intros H; [reflexivity|].
  simpl. destruct (Ascii.eqb_spec a c) as [->|Hne].
  - exfalso. now apply (H "" t).
  - rewrite IH; [reflexivity|].
    intros x y E. apply (H (String a x) y). simpl. now rewrite E.
Qed.

(** Appending text without a slash only lengthens the last piece. *)
Lemma split_char_app_free (c : ascii) (s t : string) :
  free_of c t ->
  split_char c (s ++ t)
  = (removelast (split_char c s) ++ [(last (split_char c s) "" ++ t)%string])%list.
Proof.
  intros Ht. induction s as [|a s IH].
  - simpl. now apply split_char_of_free.
  - pose proof (split_char_nonempty c s) as Hne.
    change (String a s ++ t) with (String a (s ++ t)).
    simpl split_char. destruct (Ascii.eqb a c).
    + rewrite IH. destruct (split_char c s) as [|h r]; [contradiction|].
      reflexivity.
    + rewrite IH. destruct (split_char c s) as [|h [|h' r]]; [contradiction| |];
        reflexivity.
Qed.

Lemma valid_resource_name_ext (name ext : string) :
  free_of slash ext ->
  valid_resource_name name = true ->
  valid_resource_name (name ++ ext) = true.
Proof.
  unfold valid_resource_name. intros Hext H.
  now rewrite (split_char_app_free _ _ _ Hext), removelast_last.
Qed.

Lemma valid_resource_name_under (d rest : string) :
  valid_resource_name (d ++ String slash rest)
  = forallb (fun x => negb (x =? "")) (split_char slash d)
    && valid_resource_name rest.
Proof.
  unfold valid_resource_name.
  rewrite split_char_app_sep, removelast_app by apply split_char_nonempty.
  apply forallb_app.
Qed.

Lemma valid_name_not_absolute (name : string) :
  valid_resource_name name = true -> startswith "/" name = false.
Proof.
  destruct name as [|a s]; [reflexivity|].
  rewrite startswith_slash_cons. unfold valid_resource_name.
  simpl split_char. destruct (Ascii.eqb a slash); [|reflexivity].
  pose proof (split_char_nonempty slash s) as Hne.
  destruct (split_char slash s); [contradiction | discriminate].
Qed.

Lemma joinable_pieces (l : list string) :
  l <> [] ->
  Forall (free_of slash) l ->
  forallb (fun d => negb (d =? "")) (removelast l) = true ->
  joinable l = true.
Proof.
  induction l as [|p rest IH]; [congruence|]. intros _ Hfree Hdirs.
  inversion Hfree as [|? ? Hp Hrest]; subst.
  destruct rest as [|q rest].
  - simpl. now rewrite free_of_startswith.
  - change (removelast (p :: q :: rest)) with (p :: removelast (q :: rest)) in Hdirs.
    simpl forallb in Hdirs. apply andb_true_iff in Hdirs as [Hp' Hdirs].
    change (joinable (p :: q :: rest))
      with (negb (p =? "") && negb (startswith "/" p)
            && negb (endswith_char slash p) && joinable (q :: rest)).
    rewrite Hp', free_of_startswith, free_of_endswith by assumption.
    simpl. apply IH; [discriminate | assumption | assumption].
Qed.

Lemma dir_prefix_closed (x p : string) :
  p <> "" -> endswith_char slash p = false ->
  dir_prefix (x ++ p) = x ++ p ++ "/".
Proof.
  intros Hp He. unfold dir_prefix.
  rewrite endswith_char_app, He by assumption.
  destruct (String.eqb_spec (x ++ p) "") as [E|_].
  - apply app_eq_empty in E. tauto.
  - simpl. apply append_assoc.
Qed.

Lemma join_step_relative (base p : string) :
  startswith "/" p = false -> PosixPath.join_step base p = dir_prefix base ++ p.
Proof.
  intros H. unfold PosixPath.join_step, dir_prefix. rewrite H.
  destruct ((base =? "") || endswith_char slash base); [reflexivity|].
  now rewrite append_assoc.
Qed.

(** [os.path.join] of joinable components is the base directory followed
    by the components with single slashes in between. *)
Lemma posix_join_joinable (parts : list string) :
  forall base, joinable parts = true ->
  PosixPath.join base parts = dir_prefix base ++ PyStr.join "/" parts.
Proof.
  induction parts as [|p rest IH]; intros base H; [discriminate|].
  destruct rest as [|q rest].
  - simpl in H. apply negb_true_iff in H.
    unfold PosixPath.join. simpl. now apply join_step_relative.
  - change (joinable (p :: q :: rest))
      with (negb (p =? "") && negb (startswith "/" p)
            && negb (endswith_char slash p) && joinable (q :: rest)) in H.
    repeat (apply andb_true_iff in H; destruct H as [H ?]).
    apply negb_true_iff in H. apply String.eqb_neq in H.
    repeat match goal with
           | K : negb _ = true |- _ => apply negb_true_iff in K
           end.
    change (PosixPath.join base (p :: q :: rest))
      with (PosixPath.join (PosixPath.join_step base p) (q :: rest)).
    rewrite IH by assumption.
    rewrite join_step_relative, dir_prefix_closed by assumption.
    change (PyStr.join "/" (p :: q :: rest))
      with (p ++ "/" ++ PyStr.join "/" (q :: rest)).
    now rewrite !append_assoc.
Qed.

(** The resource [r] of an installed distribution lies under its location. *)
Lemma resource_filename_rooted (env : Env) (loc r : string) :
  pympress_dist env = Some loc ->
  valid_resource_name r = true -> r <> "" ->
  resource_filename env r = Ok (dir_prefix loc ++ r).
Proof.
  intros Hloc Hr Hne. unfold resource_filename. rewrite Hloc.
  apply String.eqb_neq in Hne. rewrite Hne. f_equal.
  rewrite posix_join_joinable.
  - now rewrite join_split_char.
  - apply joinable_pieces;
      [apply split_char_nonempty | apply split_char_free | exact Hr].
Qed.

Lemma glade_free_of_slash : free_of slash ".glade".
Proof.
  intros a b E.
  assert (H : split_char slash ".glade" = split_char slash (a ++ String slash b))
    by now rewrite E.
  rewrite split_char_app_sep in H.
  pose proof (split_char_nonempty slash a) as Ha.
  pose proof (split_char_nonempty slash b) as Hb.
  destruct (split_char slash a) as [|x [|y l]]; [contradiction| |];
    destruct (split_char slash b); try contradiction; discriminate.
Qed.

(** Where the frozen and the installed program find [share/<dir>/<file>]. *)
Lemma get_resource_path_rooted (env : Env) (dir file : string) :
  valid_resource_name file = true ->
  dir <> "" -> free_of slash dir ->
  __get_resource_path env ["share"; dir; file]
  = if sys_frozen env
    then Ok (dir_prefix (PosixPath.dirname (sys_executable env))
             ++ "share/" ++ dir ++ "/" ++ file)
    else match pympress_dist env with
         | Some loc => Ok (dir_prefix loc ++ "pympress/share/" ++ dir ++ "/" ++ file)
         | None => Raise DistributionNotFound
         end.
Proof.
  intros Hfile Hdir Hfree. unfold __get_resource_path.
  destruct (sys_frozen env).
  - f_equal. rewrite posix_join_joinable; [reflexivity|].
    change (joinable ["share"; dir; file])
      with (true && (negb (dir =? "") && negb (startswith "/" dir)
                     && negb (endswith_char slash dir)
                     && negb (startswith "/" file))).
    apply String.eqb_neq in Hdir.
    now rewrite Hdir, free_of_startswith, free_of_endswith,
      valid_name_not_absolute.
  - destruct (pympress_dist env) as [loc|] eqn:Hloc.
    + change (PyStr.join "/" ["pympress"; "share"; dir; file])
        with ("pympress/share/" ++ dir ++ "/" ++ file).
      apply resource_filename_rooted; [exact Hloc | | discriminate].
      change ("pympress/share/" ++ dir ++ "/" ++ file)
        with ("pympress" ++ String slash ("share" ++ String slash (dir ++ String slash file))).
      rewrite !valid_resource_name_under, Hfile.
      rewrite (split_char_of_free _ _ Hfree). simpl.
      apply String.eqb_neq in Hdir. now rewrite Hdir.
    + unfold resource_filename. now rewrite Hloc.
Qed.

(** C8. For every valid relative name, [get_ui_resource_file] returns
    the path [share/xml/<name>.glade] below a root directory: the directory
    of the executable when the program is frozen, the [pympress] package of
    the installed distribution otherwise (and the lookup error of
    [pkg_resources] when no distribution is installed). *)
Theorem get_ui_resource_file_rooted (env : Env) (name : string) :
  valid_resource_name name = true ->
  get_ui_resource_file env name
  = if sys_frozen env
    then Ok (dir_prefix (PosixPath.dirname (sys_executable env))
             ++ "share/xml/" ++ name ++ ".glade")
    else match pympress_dist env with
         | Some loc => Ok ((dir_prefix loc ++ "pympress/")
                           ++ "share/xml/" ++ name ++ ".glade")
         | None => Raise DistributionNotFound
         end.
Proof.
  intros Hname. unfold get_ui_resource_file.
  rewrite get_resource_path_rooted.
  - destruct (sys_frozen env); [reflexivity|].
    destruct (pympress_dist env); [|reflexivity].
    now rewrite append_assoc.
  - apply valid_resource_name_ext; [apply glade_free_of_slash | exact Hname].
  - discriminate.
  - intros a b E.
    assert (H : split_char slash "xml" = split_char slash (a ++ String slash b))
      by now rewrite E.
    rewrite split_char_app_sep in H.
    pose proof (split_char_nonempty slash a) as Ha.
    pose proof (split_char_nonempty slash b) as Hb.
    destruct (split_char slash a) as [|x [|y l]]; [contradiction| |];
      destruct (split_char slash b); try contradiction; discriminate.
Qed.

(** C8 (witness): the UI file [presenter], installed and frozen. *)
Lemma get_ui_resource_file_presenter :
  get_ui_resource_file installed "presenter"
  = Ok "/usr/lib/python3/site-packages/pympress/share/xml/presenter.glade" /\
  get_ui_resource_file frozen "presenter"
  = Ok "/opt/pympress/share/xml/presenter.glade".
Proof.
  split.
  - exact (get_ui_resource_file_rooted installed "presenter" eq_refl).
  - exact (get_ui_resource_file_rooted frozen "presenter" eq_refl).
Defined.

End ResourceFacts.

(** ** The directory of a path *)
Section DirnameFacts.
Import PyStr PathSpec.

Lemma rfind_from_free (c : ascii) (f : string) :
  free_of c f -> forall i last, rfind_from c f i last = last.
Proof.
  induction f as [|a f IH]; intros Hf i last; [reflexivity|].
  simpl. destruct (Ascii.eqb_spec a c) as [->|Hne].
  - exfalso. now apply (Hf "" f).
  - apply IH. intros x y E. apply (Hf (String a x) y). simpl. now rewrite E.
Qed.

Lemma rfind_from_app (c : ascii) (a b : string) :
  forall i last,
    rfind_from c (a ++ b) i last
    = rfind_from c b (i + Z.of_nat (String.length a)) (rfind_from c a i last).
Proof.
  induction a as [|x a IH]; intros i last.
  - simpl. now rewrite Z.add_0_r.
  - simpl String.length. simpl rfind_from. rewrite IH. f_equal. lia.
Qed.

Lemma rstrip_char_closed (c : ascii) (d : string) :
  endswith_char c d = false -> rstrip_char c d = d.
Proof.
  induction d as [|a d IH]; intros H; [reflexivity|].
  destruct d as [|b d].
  - simpl in *. now rewrite H.
  - change (endswith_char c (String a (String b d)))
      with (endswith_char c (String b d)) in H.
    change (rstrip_char c (String a (String b d)))
      with (match rstrip_char c (String b d) with
            | EmptyString => if Ascii.eqb a c then EmptyString
                             else String a EmptyString
            | r => String a r
            end).
    now rewrite (IH H).
Qed.

Lemma rstrip_char_app_sep (c : ascii) (d : string) :
  rstrip_char c (d ++ String c "") = rstrip_char c d.
Proof.
  induction d as [|a d IH]; simpl.
  - now rewrite Ascii.eqb_refl.
  - now rewrite IH.
Qed.

Lemma not_all_slashes (d : string) :
  d <> "" -> endswith_char slash d = false ->
  forall n, d ++ "/" <> repeat_char slash n.
Proof.
  induction d as [|a d IH]; intros Hne He n; [congruence|].
  destruct n as [|n]; [discriminate|].
  simpl. intros E. injection E as Ea Ed.
  destruct d as [|b d].
  - simpl in He. subst a. unfold slash in He. now rewrite Ascii.eqb_refl in He.
  - apply (IH ltac:(discriminate) He n Ed).
Qed.

(** [os.path.dirname] of a file [f] in the directory [d] is [d]. *)
Lemma dirname_of_child (d f : string) :
  d <> "" -> endswith_char slash d = false -> free_of slash f ->
  PosixPath.dirname (d ++ "/" ++ f) = d.
Proof.
  intros Hne He Hf. unfold PosixPath.dirname.
  assert (Hr : rfind slash (d ++ "/" ++ f) = Z.of_nat (String.length d)).
  { unfold rfind. rewrite rfind_from_app.
    change ("/" ++ f) with (String slash f).
    change (rfind_from slash (String slash f) ?i ?l)
      with (rfind_from slash f (i + 1) (if Ascii.eqb slash slash then i else l)).
    rewrite Ascii.eqb_refl. rewrite rfind_from_free by exact Hf. lia. }
  rewrite Hr.
  replace (Z.to_nat (Z.of_nat (String.length d) + 1))
    with (String.length (d ++ "/")).
  2:{ clear. induction d as [|a d IH]; [reflexivity|].
      simpl String.length. rewrite IH. lia. }
  rewrite <- (append_assoc d "/" f), take_app_exact.
  destruct (String.eqb_spec (d ++ "/") "") as [E|_].
  - apply app_eq_empty in E. destruct E; discriminate.
  - destruct (String.eqb_spec (d ++ "/")
                (repeat_char slash (String.length (d ++ "/")))) as [E|_].
    + exfalso. now apply (not_all_slashes d Hne He _ E).
    + simpl. rewrite rstrip_char_app_sep. now apply rstrip_char_closed.
Qed.

End DirnameFacts.

(** ** Icons *)
Section IconFacts.
Import PyStr PathSpec Resources.

Lemma skip_dots_concat (p : string) (dotIndex : nat) :
  forall fuel filenameIndex,
    fst (PosixPath.skip_dots p dotIndex filenameIndex fuel)
    ++ snd (PosixPath.skip_dots p dotIndex filenameIndex fuel) = p.
Proof.
  induction fuel as [|fuel IH]; intros i.
  - apply append_nil_r.
  - change (PosixPath.skip_dots p dotIndex i (S fuel))
      with (if negb (take 1 (drop i p) =? ".")
            then (take dotIndex p, drop dotIndex p)
            else PosixPath.skip_dots p dotIndex (S i) fuel).
    destruct (negb (take 1 (drop i p) =? ".")).
    + apply take_drop.
    + apply IH.
Qed.

(** [splitext] cuts its argument in two: root and extension. *)
Lemma splitext_concat (p : string) :
  fst (PosixPath.splitext p) ++ snd (PosixPath.splitext p) = p.
Proof.
  unfold PosixPath.splitext.
  destruct (rfind slash p <? rfind dot p)%Z.
  - apply skip_dots_concat.
  - apply append_nil_r.
Qed.

Lemma take9_prefix (i : string) :
  (take 9 i =? "pympress-") = true <-> exists rest, i = "pympress-" ++ rest.
Proof.
  split.
  - intros H. apply String.eqb_eq in H. exists (drop 9 i).
    rewrite <- H. symmetry. apply take_drop.
  - intros [rest ->]. apply String.eqb_eq.
    apply (take_app_exact "pympress-" rest).
Qed.

(** What [is_icon_name] decides. *)
Lemma is_icon_name_spec (i : string) :
  is_icon_name i = true <->
  lower (snd (PosixPath.splitext i)) = ".png" /\
  exists rest, i = "pympress-" ++ rest.
Proof.
  unfold is_icon_name. rewrite andb_true_iff, String.eqb_eq, take9_prefix.
  reflexivity.
Qed.

Lemma filter_Subseq {A : Type} (f : A -> bool) (l : list A) :
  Subseq (filter f l) l.
Proof.
  induction l as [|x l IH]; simpl; [constructor|].
  destruct (f x); now constructor.
Qed.

(** C9. Every name [list_icons] returns ends in an extension that is
    [.png] up to case and starts with [pympress-]; the names come from the
    listing in its order, and every entry of the listing with both
    properties is returned, as often as it is listed. *)
Theorem list_icons_png_pympress (env : Env) :
  match __get_resource_list env ["share"; "pixmaps"] with
  | Ok entries =>
      exists names,
        list_icons env = Ok names /\
        Forall (fun i =>
                  (exists root ext, i = root ++ ext /\
                                    PosixPath.splitext i = (root, ext) /\
                                    lower ext = ".png") /\
                  (exists rest, i = "pympress-" ++ rest /\
                                String.length "pympress-" = 9)) names /\
        Subseq names entries /\
        (forall i, lower (snd (PosixPath.splitext i)) = ".png" ->
                   (exists rest, i = "pympress-" ++ rest) ->
                   In i entries ->
                   In i names /\
                   count_occ string_dec names i = count_occ string_dec entries i)
  | Raise e => list_icons env = Raise e
  end.
Proof.
  unfold list_icons.
  destruct (__get_resource_list env ["share"; "pixmaps"]) as [entries|e];
    [|reflexivity].
  exists (filter is_icon_name entries). split; [reflexivity|].
  split; [|split].
  - apply Forall_forall. intros i Hi. apply filter_In in Hi as [_ Hi].
    apply is_icon_name_spec in Hi as [Hext Hpre]. split.
    + exists (fst (PosixPath.splitext i)), (snd (PosixPath.splitext i)).
      repeat split; [symmetry; apply splitext_concat | | exact Hext].
      now destruct (PosixPath.splitext i).
    + destruct Hpre as [rest ->]. now exists rest.
  - apply filter_Subseq.
  - intros i Hext Hpre Hin.
    assert (Hi : is_icon_name i = true) by now apply is_icon_name_spec.
    split; [now apply filter_In|].
    clear Hin. induction entries as [|x l IH]; [reflexivity|].
    simpl. destruct (string_dec x i) as [->|Hne].
    + rewrite Hi. simpl. destruct (string_dec i i); [|contradiction].
      now rewrite IH.
    + destruct (is_icon_name x); simpl; [|exact IH].
      destruct (string_dec x i); [contradiction | exact IH].
Qed.

Lemma load_icons_loop (env : Env) (names : list string) :
  forall icons logged,
    fold_left (load_icons_body env) names (icons, logged)
    = ((icons ++ loadable env names)%list,
       (logged ++ repeat "Error loading icons" (failures env names))%list).
Proof.
  induction names as [|n names IH]; intros icons logged.
  - simpl. now rewrite !app_nil_r.
  - change (fold_left (load_icons_body env) (n :: names) (icons, logged))
      with (fold_left (load_icons_body env) names
                      (load_icons_body env (icons, logged) n)).
    unfold loadable, failures. simpl flat_map. simpl filter.
    replace (load_icons_body env (icons, logged) n)
      with (match get_icon_pixbuf env n with
            | Ok p => ((icons ++ [p])%list, logged)
            | Raise _ => (icons, (logged ++ ["Error loading icons"])%list)
            end) by reflexivity.
    destruct (get_icon_pixbuf env n) as [p|e]; rewrite IH.
    + now rewrite <- app_assoc.
    + simpl. now rewrite <- app_assoc.
Qed.

(** C10. Whatever icons fail to load, [load_icons] returns normally once
    the listing is there: its result is the list of the icons that loaded,
    in the order of the listing, and each failure leaves one record in the
    log.  Only the exception of the listing itself, which is raised outside
    the [try], reaches the caller. *)
Theorem load_icons_skips_failures (env : Env) :
  match list_icons env with
  | Ok names =>
      load_icons env
      = (Ok (loadable env names),
         repeat "Error loading icons" (failures env names)) /\
      List.length (loadable env names) + failures env names
      = List.length names
  | Raise e => load_icons env = (Raise e, [])
  end.
Proof.
  unfold load_icons. destruct (list_icons env) as [names|e]; [|reflexivity].
  rewrite load_icons_loop. split; [reflexivity|].
  unfold loadable, failures.
  induction names as [|n names IH]; [reflexivity|]. simpl.
  destruct (get_icon_pixbuf env n); simpl; lia.
Qed.

End IconFacts.

(** ** Screensaver control *)
Section ScreensaverFacts.
Import PyStr Eff Screensaver ScreensaverSpec.

(** A shell command changes nothing but the DPMS flag and the set of
    suspended windows. *)
Lemma run_command_frame (cmd : string) (o : OS) :
  sh_status (run_command cmd o) = sh_status o /\
  sh_history (run_command cmd o) = sh_history o /\
  children (run_command cmd o) = children o /\
  next_pid (run_command cmd o) = next_pid o /\
  getpid (run_command cmd o) = getpid o /\
  reg_openable (run_command cmd o) = reg_openable o /\
  ScreenSaveActive (run_command cmd o) = ScreenSaveActive o.
Proof.
  unfold run_command.
  repeat match goal with
         | |- context [if ?b then _ else _] => destruct b
         end; repeat split.
Qed.

Lemma run_command_sh_status (cmd : string) (o : OS) :
  sh_status (run_command cmd o) = sh_status o.
Proof. apply run_command_frame. Qed.

Lemma run_command_sh_history (cmd : string) (o : OS) :
  sh_history (run_command cmd o) = sh_history o.
Proof. apply run_command_frame. Qed.

Lemma run_command_children (cmd : string) (o : OS) :
  children (run_command cmd o) = children o.
Proof. apply run_command_frame. Qed.

Lemma run_command_ScreenSaveActive (cmd : string) (o : OS) :
  ScreenSaveActive (run_command cmd o) = ScreenSaveActive o.
Proof. apply run_command_frame. Qed.

Lemma run_command_dpms (cmd : string) (o : OS) :
  dpms_on (run_command cmd o)
  = if cmd =? "xset -dpms" then false
    else if cmd =? "xset +dpms" then true else dpms_on o.
Proof.
  unfold run_command.
  repeat match goal with
         | |- context [if ?b then _ else _] => destruct b
         end; reflexivity.
Qed.

Lemma xdg_is_not_xset_off (verb w : string) :
  ("xdg-screensaver " ++ verb ++ " " ++ w =? "xset -dpms") = false.
Proof. reflexivity. Qed.

Lemma xdg_is_not_xset_on (verb w : string) :
  ("xdg-screensaver " ++ verb ++ " " ++ w =? "xset +dpms") = false.
Proof. reflexivity. Qed.

Lemma read_dpms_status_xset_q (o : OS) :
  read_dpms_status (xset_q o) = if dpms_on o then "Enabled" else "Disabled".
Proof. unfold xset_q. destruct (dpms_on o); vm_compute; reflexivity. Qed.

(** Unfold the statements of [set_screensaver], leaving the commands and
    their strings as they are. *)
Ltac run_monad :=
  cbv beta iota zeta delta
      [set_screensaver mac_branch posix_branch windows_branch
       bind ret raise try_except when modify
       get_recorded set_recorded log on_os os_system popen_xset_q
       Popen poll kill OpenKey QueryValueEx SetValueEx
       truthy is_None is_OSError
       IS_POSIX IS_MAC_OS IS_WINDOWS negb andb orb];
  cbn [os dpms_was_enabled logged fst snd].

(** Read the fields of the operating system after commands have run. *)
Ltac os_fields :=
  repeat first
    [ rewrite run_command_sh_status
    | rewrite run_command_sh_history
    | rewrite run_command_children
    | rewrite run_command_ScreenSaveActive
    | rewrite run_command_dpms
    | rewrite xdg_is_not_xset_off
    | rewrite xdg_is_not_xset_on
    | rewrite read_dpms_status_xset_q
    | rewrite String.eqb_refl
    | progress change ("Disabled" =? "Enabled") with false
    | progress change ("xset +dpms" =? "xset -dpms") with false
    | progress cbv beta iota
    | progress cbn [os dpms_was_enabled logged fst snd with_history
                    with_ScreenSaveActive with_children with_dpms
                    dpms_on sh_status sh_history children ScreenSaveActive
                    reg_openable next_pid getpid suspended] ].

Lemma linux_disable (o : OS) (r0 : Recorded) (l : list string) (xid : nat) :
  let d := posix_branch true xid {| os := o; dpms_was_enabled := r0; logged := l |} in
  fst d = Ok tt /\
  dpms_was_enabled (snd d) = RBool (dpms_on o) /\
  sh_status (os (snd d)) = sh_status o /\
  ScreenSaveActive (os (snd d)) = ScreenSaveActive o /\
  children (os (snd d)) = children o /\
  dpms_on (os (snd d))
  = (if (sh_status o "xset -dpms" =? 0)%Z then false else dpms_on o) /\
  sh_history (os (snd d))
  = (sh_history o ++ [("xdg-screensaver suspend " ++ str_of_nat xid)%string]
       ++ (if dpms_on o then ["xset -dpms"] else []))%list.
Proof.
  intros d. subst d. run_monad.
  destruct (sh_status o _ =? 0)%Z; os_fields;
    destruct (dpms_on o) eqn:Don; os_fields;
    destruct (sh_status o "xset -dpms" =? 0)%Z; os_fields;
    rewrite ?Don; repeat split; rewrite <- ?app_assoc; reflexivity.
Qed.

Lemma linux_enable (o : OS) (b : bool) (l : list string) (xid : nat) :
  let e := posix_branch false xid
             {| os := o; dpms_was_enabled := RBool b; logged := l |} in
  fst e = Ok tt /\
  dpms_was_enabled (snd e) = RBool b /\
  ScreenSaveActive (os (snd e)) = ScreenSaveActive o /\
  children (os (snd e)) = children o /\
  dpms_on (os (snd e))
  = (if b && (sh_status o "xset +dpms" =? 0)%Z then true else dpms_on o) /\
  sh_history (os (snd e))
  = (sh_history o ++ [("xdg-screensaver resume " ++ str_of_nat xid)%string]
       ++ (if b then ["xset +dpms"] else []))%list.
Proof.
  intros e. subst e. run_monad.
  destruct (sh_status o _ =? 0)%Z; os_fields;
    destruct b; os_fields;
    destruct (sh_status o "xset +dpms" =? 0)%Z; os_fields;
    repeat split; rewrite <- ?app_assoc; reflexivity.
Qed.

Lemma windows_disable (o : OS) (r0 : Recorded) (l : list string) (v : string) :
  reg_openable o = true ->
  ScreenSaveActive o = Some (REG_SZ, v) ->
  let d := windows_branch true {| os := o; dpms_was_enabled := r0; logged := l |} in
  fst d = Ok tt /\
  dpms_was_enabled (snd d) = RBool (v =? "1") /\
  reg_openable (os (snd d)) = true /\
  dpms_on (os (snd d)) = dpms_on o /\
  sh_history (os (snd d)) = sh_history o /\
  ScreenSaveActive (os (snd d))
  = Some (REG_SZ, if v =? "1" then "0" else v).
Proof.
  intros Hopen Hval d. subst d. run_monad. rewrite Hopen, Hval.
  cbn [RegType_eqb]. os_fields.
  destruct (v =? "1"); os_fields; repeat split; assumption.
Qed.

Lemma windows_enable (o : OS) (b : bool) (l : list string) :
  reg_openable o = true ->
  let e := windows_branch false
             {| os := o; dpms_was_enabled := RBool b; logged := l |} in
  fst e = Ok tt /\
  dpms_on (os (snd e)) = dpms_on o /\
  sh_history (os (snd e)) = sh_history o /\
  ScreenSaveActive (os (snd e))
  = if b then Some (REG_SZ, "1") else ScreenSaveActive o.
Proof.
  intros Hopen e. subst e. run_monad. rewrite Hopen. os_fields.
  destruct b; os_fields; repeat split.
Qed.

(** C3 (as amended).  The first [enable], made while the attribute is
    still [None], returns normally, leaves the attribute [None], starts and
    kills no process, writes no registry value and leaves DPMS as it is.
    On Mac OS, on Windows and on an unsupported system nothing of the
    operating system changes; on Linux exactly one shell command is issued,
    [xdg-screensaver resume <xid>]. *)
Theorem enable_before_disable
        (pf : Platform) (o : OS) (l : list string) (xid : nat) :
  let s := {| os := o; dpms_was_enabled := RNone; logged := l |} in
  let r := set_screensaver pf false xid s in
  fst r = Ok tt /\
  dpms_was_enabled (snd r) = RNone /\
  dpms_on (os (snd r)) = dpms_on o /\
  children (os (snd r)) = children o /\
  ScreenSaveActive (os (snd r)) = ScreenSaveActive o /\
  if negb (IS_MAC_OS pf) && IS_POSIX pf
  then sh_history (os (snd r))
       = (sh_history o
            ++ [("xdg-screensaver resume " ++ str_of_nat xid)%string])%list
  else os (snd r) = o.
Proof.
  destruct pf as [posix mac win]. intros s r. subst s r.
  destruct mac; [| destruct posix; [| destruct win]].
  - run_monad. repeat split.
  - run_monad.
    destruct (sh_status o _ =? 0)%Z; os_fields; repeat split.
  - run_monad. destruct (reg_openable o); repeat split.
  - run_monad. repeat split.
Qed.

(** C3 (counterexample).  On Linux the first [enable] runs
    [xdg-screensaver resume 42]: the operating system is not what it was,
    the suspension held for window 42 is gone. *)
Lemma enable_before_disable_runs_xdg_screensaver :
  let r := set_screensaver linux false 42 (initial desktop) in
  dpms_was_enabled (initial desktop) = RNone /\
  sh_history (os (snd r)) = ["xdg-screensaver resume 42"] /\
  suspended desktop = ["42"] /\
  suspended (os (snd r)) = [] /\
  os (snd r) <> desktop.
Proof.
  cbv zeta. repeat split; try (vm_compute; reflexivity).
  intros H. apply (f_equal sh_history) in H. vm_compute in H. discriminate.
Qed.



End ScreensaverFacts.

(** ** The file watcher *)
Section WatcherFacts.
Import PyStr Eff Eff.Notations FileWatcher WatcherSpec.

(** Unfold the statements of the class down to the record of the state. *)
Ltac run_fw :=
  cbv beta iota zeta delta
      [exec watch_file enqueue call stop_watching start_daemon stop_daemon
       run_handler dispatch file_modified notify_watches
       timeout_add source_remove observer_start observer_stop
       observer_unschedule_all observer_schedule print invoke gets
       bind ret raise try_except when modify is_OSError py_truthy];
  cbn [timeout on_modified observer_alive observer_starts observer_watches
       glib_next_id glib_sources clock watchable calls stdout logged
       set_timeout set_on_modified set_observer set_glib set_clock set_calls
       set_stdout fst snd negb source_id interval due data src_path].

Lemma exec_bind {A B : Type} (m : M A) (k : A -> M B) (s : State) (a : A) :
  fst (m s) = Ok a -> exec (bind m k) s = exec (k a) (exec m s).
Proof.
  unfold exec, bind. destruct (m s) as [r s']. simpl. now intros ->.
Qed.

Lemma enqueue_run (b : Bound) (s : State) :
  enqueue b s
  = (Ok tt,
     set_timeout (glib_next_id s)
       (set_glib (S (glib_next_id s))
          ((if (timeout s =? 0)%nat then glib_sources s
            else filter (fun src => negb (source_id src =? timeout s)%nat)
                        (glib_sources s))
           ++ [{| source_id := glib_next_id s; interval := 200;
                  due := clock s + 200; data := user_data b |}])%list
          s)).
Proof. run_fw. destruct (timeout s =? 0)%nat; reflexivity. Qed.

(** Scheduling replaces whatever was pending by one timer, 200 ms ahead,
    that holds the callback and the positional arguments. *)
Lemma enqueue_arms (b : Bound) (s : State) :
  consistent s ->
  let s' := exec (enqueue b) s in
  armed s' (user_data b) (clock s + 200) /\
  calls s' = calls s /\ clock s' = clock s /\
  observer_alive s' = observer_alive s /\
  observer_watches s' = observer_watches s /\
  on_modified s' = on_modified s.
Proof.
  intros [Hid Hsrc] s'. subst s'. unfold exec. rewrite enqueue_run.
  unfold armed. run_fw.
  repeat split; try discriminate; try assumption.
  destruct (glib_sources s) as [|src [|src' rest]]; [| |contradiction].
  - now destruct (timeout s =? 0)%nat.
  - destruct Hsrc as (Hsrc & Hne & _).
    apply Nat.eqb_neq in Hne. rewrite Hne. simpl.
    rewrite Hsrc, Nat.eqb_refl. reflexivity.
Qed.

(** An expired source runs the call once and is destroyed. *)
Lemma dispatch_run (src : Source) (s : State) :
  dispatch src s
  = (Ok tt,
     set_glib (glib_next_id s)
       (filter (fun x => negb (source_id x =? source_id src)%nat) (glib_sources s))
       (set_calls (calls s ++ [data src])
          (if (timeout s =? 0)%nat then s else set_timeout 0 s))).
Proof. run_fw. destruct (timeout s =? 0)%nat; reflexivity. Qed.

Lemma same_watch_refl (s : State) : same_watch s s.
Proof. repeat split. Qed.

Lemma same_watch_trans (s1 s2 s3 : State) :
  same_watch s1 s2 -> same_watch s2 s3 -> same_watch s1 s3.
Proof.
  unfold same_watch. intros (A1 & A2 & A3 & A4 & A5 & A6 & A7)
                            (B1 & B2 & B3 & B4 & B5 & B6 & B7).
  repeat split; congruence.
Qed.

Lemma dispatch_expired_total (l : list Source) :
  forall s, fst (dispatch_expired l s) = Ok tt /\
            same_watch s (snd (dispatch_expired l s)) /\
            clock (snd (dispatch_expired l s)) = clock s.
Proof.
  induction l as [|src rest IH]; intros s.
  - repeat split.
  - change (dispatch_expired (src :: rest))
      with ((now <- gets clock ;;
             still <- gets (attached (source_id src)) ;;
             when ((due src <=? now)%nat && still) (dispatch src)) ;;;
            dispatch_expired rest).
    cbv beta iota zeta delta [bind gets when ret].
    destruct ((due src <=? clock s)%nat && attached (source_id src) s).
    + rewrite dispatch_run.
      match goal with |- context [dispatch_expired rest ?x] =>
        destruct (IH x) as (I1 & I2 & I3); set (s1 := x) in * end.
      split; [exact I1 | split].
      * apply (same_watch_trans s s1); [|exact I2].
        subst s1. destruct (timeout s =? 0)%nat; repeat split.
      * cbn [snd]. rewrite I3. subst s1. now destruct (timeout s =? 0)%nat.
    + apply IH.
Qed.

(** Time passing always returns, moves the clock, and leaves the watch
    as it is. *)
Lemma advance_total (dt : nat) (s : State) :
  fst (advance dt s) = Ok tt /\
  same_watch s (exec (advance dt) s) /\
  clock (exec (advance dt) s) = clock s + dt.
Proof.
  unfold exec, advance. cbv beta iota zeta delta [bind modify gets].
  cbn [glib_sources set_clock].
  match goal with |- context [dispatch_expired ?l ?x] =>
    destruct (dispatch_expired_total l x) as (I1 & I2 & I3) end.
  split; [exact I1 | split; [exact I2 | exact I3]].
Qed.

Lemma advance_idle (dt : nat) (s : State) :
  glib_sources s = [] ->
  advance dt s = (Ok tt, set_clock (clock s + dt) s).
Proof.
  intros H. unfold advance. cbv beta iota zeta delta [bind modify gets].
  cbn [glib_sources set_clock]. now rewrite H.
Qed.

(** Before the deadline the pending timer stays pending. *)
Lemma advance_early (dt : nat) (s : State) (b : Bound) (deadline : nat) :
  armed s b deadline -> clock s + dt < deadline ->
  advance dt s = (Ok tt, set_clock (clock s + dt) s).
Proof.
  intros (Hid & Ht & Hsrc) Hlt. unfold advance.
  cbv beta iota zeta delta [bind modify gets].
  cbn [glib_sources set_clock]. rewrite Hsrc.
  cbv beta iota zeta delta [dispatch_expired bind gets when ret].
  cbn [clock due set_clock]. apply Nat.leb_gt in Hlt. now rewrite Hlt.
Qed.

(** At the deadline the timer runs the call, once, and is gone. *)
Lemma advance_fires (dt : nat) (s : State) (b : Bound) (deadline : nat) :
  armed s b deadline -> deadline <= clock s + dt ->
  advance dt s
  = (Ok tt,
     set_glib (glib_next_id s) []
       (set_calls (calls s ++ [b])
          (set_timeout 0 (set_clock (clock s + dt) s)))).
Proof.
  intros (Hid & Ht & Hsrc) Hle. unfold advance.
  cbv beta iota zeta delta [bind modify gets].
  cbn [glib_sources set_clock]. rewrite Hsrc.
  cbv beta iota zeta delta [dispatch_expired bind gets when ret attached].
  cbn [clock due source_id glib_sources existsb set_clock].
  rewrite Hsrc. cbn [existsb source_id].
  apply Nat.leb_le in Hle. rewrite Hle, Nat.eqb_refl. cbn [andb orb].
  rewrite dispatch_run.
  cbn [timeout glib_sources glib_next_id calls data source_id set_clock].
  rewrite Hsrc. apply Nat.eqb_neq in Ht. rewrite Ht.
  cbn [filter source_id set_timeout set_calls set_glib timeout glib_sources
       glib_next_id calls clock on_modified observer_alive observer_starts
       observer_watches watchable stdout logged].
  rewrite Nat.eqb_refl. reflexivity.
Qed.

End WatcherFacts.

Section DebounceFacts.
Import PyStr Eff Eff.Notations FileWatcher WatcherSpec.

Lemma watching_same_watch (s s' : State) (path : string) (b : Bound) :
  same_watch s s' -> watching s path b -> watching s' path b.
Proof.
  unfold same_watch, watching.
  intros (A1 & _ & A3 & A4 & _) (W1 & W2 & W3). repeat split; congruence.
Qed.

Lemma enqueue_same_watch (b : Bound) (s : State) :
  same_watch s (exec (enqueue b) s).
Proof. unfold exec. rewrite enqueue_run. repeat split. Qed.

Lemma enqueue_ok (b : Bound) (s : State) : fst (enqueue b s) = Ok tt.
Proof. now rewrite enqueue_run. Qed.

(** A modification of the watched path reaches [enqueue]. *)
Lemma file_modified_watched (s : State) (path : string) (b : Bound) :
  watching s path b -> file_modified path s = enqueue b s.
Proof.
  intros (W1 & W2 & W3). unfold file_modified.
  cbv beta iota zeta delta [bind gets ret].
  rewrite W1, W2. cbv beta iota zeta delta [notify_watches bind gets ret].
  cbn [src_path]. rewrite String.eqb_refl, W3.
  unfold run_handler. cbn [src_path]. rewrite String.eqb_refl.
  now rewrite enqueue_run.
Qed.

(** A modification of any other path changes nothing. *)
Lemma file_modified_elsewhere (s : State) (path p : string) (b : Bound) :
  watching s path b -> p <> path -> file_modified p s = (Ok tt, s).
Proof.
  intros (W1 & W2 & W3) Hne. unfold file_modified.
  cbv beta iota zeta delta [bind gets ret]. rewrite W1, W2.
  cbv beta iota zeta delta [notify_watches bind gets ret]. cbn [src_path].
  destruct (PosixPath.dirname path =? PosixPath.dirname p); [|reflexivity].
  rewrite W3. unfold run_handler. cbn [src_path].
  apply String.eqb_neq in Hne. now rewrite Hne.
Qed.

(** Without a watch no modification is seen. *)
Lemma file_modified_unwatched (s : State) (p : string) :
  observer_watches s = [] -> file_modified p s = (Ok tt, s).
Proof.
  intros H. unfold file_modified.
  cbv beta iota zeta delta [bind gets ret]. rewrite H.
  now destruct (observer_alive s).
Qed.

Lemma armed_consistent (s : State) (b : Bound) (deadline : nat) :
  armed s b deadline -> consistent s.
Proof.
  intros (Hid & Ht & Hsrc). split; [exact Hid|]. rewrite Hsrc.
  repeat split. exact Ht.
Qed.

Lemma last_cons_default {A : Type} (x d : A) (l : list A) :
  last (x :: l) d = last l x.
Proof.
  revert x d. induction l as [|y l IH]; intros x d; [reflexivity|].
  change (last (x :: y :: l) d) with (last (y :: l) d).
  now rewrite (IH y d), (IH y x).
Qed.

(** A consistent state has no timer pending, or one. *)
Lemma consistent_cases (s : State) :
  consistent s -> glib_sources s = [] \/ exists b deadline, armed s b deadline.
Proof.
  intros [Hid Hsrc]. destruct (glib_sources s) as [|src [|src' rest]] eqn:E;
    [now left | right | contradiction].
  destruct src as [id iv du da]. cbn in Hsrc. destruct Hsrc as (-> & Hne & ->).
  exists da, du. repeat split; assumption.
Qed.

Lemma consistent_frame (s s' : State) :
  glib_next_id s' = glib_next_id s -> glib_sources s' = glib_sources s ->
  timeout s' = timeout s -> consistent s -> consistent s'.
Proof. unfold consistent. now intros -> -> ->. Qed.

Lemma advance_consistent (dt : nat) (s : State) :
  consistent s -> consistent (exec (advance dt) s).
Proof.
  intros Hc. destruct (consistent_cases s Hc) as [He | (b & deadline & A)].
  - unfold exec. rewrite advance_idle by exact He.
    now apply (consistent_frame s).
  - destruct (Nat.le_gt_cases deadline (clock s + dt)) as [Hle|Hgt].
    + unfold exec. rewrite (advance_fires dt s b deadline A Hle).
      split; [apply A | exact I].
    + unfold exec. rewrite (advance_early dt s b deadline A Hgt).
      now apply (consistent_frame s).
Qed.

Lemma notify_watches_consistent (evt : Event) (ws : list string) :
  forall s, consistent s ->
            fst (notify_watches ws evt s) = Ok tt /\
            consistent (snd (notify_watches ws evt s)).
Proof.
  induction ws as [|w rest IH]; intros s Hc; [now split|].
  change (notify_watches (w :: rest) evt)
    with ((if w =? PosixPath.dirname (src_path evt)
           then h <- gets on_modified ;; run_handler h evt
           else ret tt) ;;;
          notify_watches rest evt).
  unfold bind at 1.
  destruct (w =? PosixPath.dirname (src_path evt)); [|now apply IH].
  cbv beta iota zeta delta [bind gets]. unfold run_handler.
  destruct (on_modified s) as [|path b]; [now apply IH|].
  destruct (src_path evt =? path); [|now apply IH].
  rewrite enqueue_run. apply IH.
  destruct (enqueue_arms b s Hc) as (A & _). unfold exec in A.
  rewrite enqueue_run in A. exact (armed_consistent _ _ _ A).
Qed.

(** Every state the class goes through is consistent. *)
Lemma reachable_consistent (s : State) : Reachable s -> consistent s.
Proof.
  induction 1 as [fs | s path b _ IH | s _ IH | s wait _ IH | s b _ IH
                  | s p _ IH | s dt _ IH].
  - split; [discriminate | exact I].
  - apply (consistent_frame s); try exact IH; unfold exec;
      cbv beta iota zeta delta
          [watch_file stop_watching start_daemon observer_start
           observer_unschedule_all observer_schedule print gets
           bind ret raise try_except when modify is_OSError negb];
      destruct (observer_alive s); cbn [negb];
      try destruct (observer_starts s =? 0)%nat;
      cbn [watchable set_observer set_on_modified];
      try destruct (watchable s (PosixPath.dirname path)); reflexivity.
  - now apply (consistent_frame s).
  - apply (consistent_frame s); try exact IH; unfold exec;
      cbv beta iota zeta delta
          [stop_daemon observer_unschedule_all observer_stop gets bind ret
           when modify];
      cbn [observer_alive set_observer]; destruct (observer_alive s);
      reflexivity.
  - destruct (enqueue_arms b s IH) as (A & _). exact (armed_consistent _ _ _ A).
  - unfold exec, file_modified. cbv beta iota zeta delta [bind gets ret].
    destruct (observer_alive s); [|exact IH].
    now apply notify_watches_consistent.
  - now apply advance_consistent.
Qed.

(** Rescheduling within the window keeps one timer pending, bound to the
    latest call, and runs nothing. *)
Lemma enqueue_again_armed (more : list (nat * Bound)) :
  forall (s : State) (b : Bound),
    armed s b (clock s + 200) ->
    Forall (fun gb => fst gb < 200) more ->
    let s' := exec (enqueue_again more) s in
    armed s' (last (map (fun gb => user_data (snd gb)) more) b)
          (clock s' + 200) /\
    calls s' = calls s /\ same_watch s s'.
Proof.
  induction more as [|[gap b'] rest IH]; intros s b Harmed Hgaps.
  - simpl. repeat split; try apply Harmed.
  - inversion Hgaps as [|? ? Hgap Hrest]; subst. simpl in Hgap.
    assert (Hearly : advance gap s = (Ok tt, set_clock (clock s + gap) s))
      by (apply (advance_early gap s b (clock s + 200)); [exact Harmed | lia]).
    set (s1 := set_clock (clock s + gap) s) in *.
    set (s2 := exec (enqueue b') s1).
    assert (E : exec (enqueue_again ((gap, b') :: rest)) s
                = exec (enqueue_again rest) s2).
    { change (enqueue_again ((gap, b') :: rest))
        with (advance gap ;;; enqueue b' ;;; enqueue_again rest).
      rewrite (exec_bind _ _ s tt) by now rewrite Hearly.
      replace (exec (advance gap) s) with s1 by (unfold exec; now rewrite Hearly).
      now rewrite (exec_bind _ _ s1 tt) by apply enqueue_ok. }
    cbv zeta. rewrite E.
    assert (Hc1 : consistent s1)
      by (apply (armed_consistent s1 b (clock s + 200)); exact Harmed).
    destruct (enqueue_arms b' s1 Hc1) as (A & C1 & C2 & _).
    fold s2 in A, C1, C2.
    rewrite <- C2 in A.
    destruct (IH s2 (user_data b') A Hrest) as (I1 & I2 & I3).
    split; [|split].
    + replace (last (map (fun gb => user_data (snd gb)) ((gap, b') :: rest)) b)
        with (last (map (fun gb : nat * Bound => user_data (snd gb)) rest)
                   (user_data b')); [exact I1|].
      symmetry.
      apply (last_cons_default (user_data b') b
               (map (fun gb : nat * Bound => user_data (snd gb)) rest)).
    + rewrite I2, C1. reflexivity.
    + apply (same_watch_trans s s2); [|exact I3].
      apply (same_watch_trans s s1); [repeat split|].
      apply enqueue_same_watch.
Qed.

(** While [path] is watched, a burst of modifications is a burst of
    scheduling calls with the call bound by [watch_file]. *)
Lemma modified_again_enqueues (path : string) (b : Bound) (gaps : list nat) :
  forall s, watching s path b ->
  modified_again path gaps s
  = enqueue_again (map (fun gap => (gap, b)) gaps) s.
Proof.
  induction gaps as [|gap rest IH]; intros s W; [reflexivity|].
  change (modified_again path (gap :: rest))
    with (advance gap ;;; file_modified path ;;; modified_again path rest).
  change (enqueue_again (map (fun gap => (gap, b)) (gap :: rest)))
    with (advance gap ;;; enqueue b ;;;
          enqueue_again (map (fun gap => (gap, b)) rest)).
  destruct (advance_total gap s) as (T1 & T2 & _). unfold exec in T2.
  unfold bind at 1 3. destruct (advance gap s) as [r s1].
  cbn [fst snd] in T1, T2. subst r.
  pose proof (watching_same_watch _ _ _ _ T2 W) as W1.
  unfold bind. rewrite (file_modified_watched s1 path b W1), enqueue_run.
  apply IH. apply (watching_same_watch s1); [|exact W1].
  pose proof (enqueue_same_watch b s1) as Q. unfold exec in Q.
  now rewrite enqueue_run in Q.
Qed.

Lemma last_same_bound (b : Bound) (gaps : list nat) :
  last (map snd (map (fun gap => (gap, b)) gaps)) b = b.
Proof.
  induction gaps as [|g rest IH]; [reflexivity|].
  simpl map. now rewrite last_cons_default.
Qed.

Lemma last_user_data (more : list (nat * Bound)) (b : Bound) :
  last (map (fun gb => user_data (snd gb)) more) (user_data b)
  = user_data (last (map snd more) b).
Proof.
  revert b. induction more as [|[g b'] rest IH]; intros b; [reflexivity|].
  simpl map. now rewrite !last_cons_default.
Qed.

(** One timer is pending after a burst of scheduling calls; it runs the
    latest call when 200 ms have passed, and nothing runs before or
    after. *)
Lemma enqueue_burst_fires_once
      (s : State) (b0 : Bound) (more : list (nat * Bound)) (D : nat) :
  consistent s ->
  Forall (fun gb => fst gb < 200) more ->
  200 <= D ->
  let s1 := exec (enqueue b0 ;;; enqueue_again more) s in
  let s2 := exec (advance D) s1 in
  calls s1 = calls s /\
  (forall d, d < 200 -> calls (exec (advance d) s1) = calls s) /\
  calls s2 = (calls s ++ [user_data (last (map snd more) b0)])%list /\
  timeout s2 = 0 /\ glib_sources s2 = [] /\
  (forall d, calls (exec (advance d) s2) = calls s2) /\
  same_watch s s2.
Proof.
  intros Hc Hgaps HD s1 s2.
  destruct (enqueue_arms b0 s Hc) as (A & C1 & C2 & _).
  set (s0 := exec (enqueue b0) s) in *. rewrite <- C2 in A.
  destruct (enqueue_again_armed more s0 (user_data b0) A Hgaps)
    as (A1 & C3 & W3).
  rewrite last_user_data in A1.
  assert (E1 : s1 = exec (enqueue_again more) s0).
  { subst s1. now rewrite (exec_bind _ _ s tt) by apply enqueue_ok. }
  rewrite <- E1 in A1, C3, W3.
  assert (Hfire := advance_fires D s1 _ _ A1 ltac:(lia)).
  assert (E2 : s2 = set_glib (glib_next_id s1) []
                      (set_calls (calls s1 ++
                                  [user_data (last (map snd more) b0)])
                         (set_timeout 0 (set_clock (clock s1 + D) s1)))).
  { subst s2. unfold exec. now rewrite Hfire. }
  split; [congruence | split; [|split; [|split; [|split; [|split]]]]].
  - intros d Hd. unfold exec.
    rewrite (advance_early d s1 _ _ A1) by lia. cbn [snd set_clock calls].
    congruence.
  - rewrite E2. cbn [calls set_glib set_calls]. congruence.
  - now rewrite E2.
  - now rewrite E2.
  - intros d. unfold exec. rewrite advance_idle by now rewrite E2.
    reflexivity.
  - apply (same_watch_trans s s1).
    + apply (same_watch_trans s s0); [apply enqueue_same_watch | exact W3].
    + rewrite E2. repeat split.
Qed.



End DebounceFacts.

Section WatchFacts.
Import PyStr Eff Eff.Notations FileWatcher WatcherSpec.

(** The state [watch_file] leaves while the observer runs or can be
    started, whether the directory opens or not. *)
Lemma watch_file_run (path : string) (b : Bound) (s : State) :
  startable s = true ->
  let directory := PosixPath.dirname path in
  let starts := if observer_alive s then observer_starts s
                else S (observer_starts s) in
  watch_file path b s
  = (Ok tt,
     if watchable s directory
     then set_observer true starts [directory]
            (set_on_modified (Lambda path b) s)
     else set_stdout (stdout s ++ [("Impossible to open dir at " ++ directory)%string])
            (set_observer true starts []
               (set_on_modified (Lambda path b) s))).
Proof.
  unfold startable. intros Hs.
  cbv beta iota zeta delta
      [watch_file stop_watching start_daemon observer_start
       observer_unschedule_all observer_schedule print gets
       bind ret raise try_except when modify is_OSError negb].
  destruct (observer_alive s) eqn:Ha; cbn [orb] in Hs; rewrite ?Hs;
    try (apply Nat.eqb_eq in Hs);
    cbn [watchable observer_alive observer_starts observer_watches
         set_observer set_on_modified];
    destruct (watchable s (PosixPath.dirname path));
    unfold set_observer, set_on_modified, set_stdout;
    cbn [timeout on_modified observer_alive observer_starts observer_watches
         glib_next_id glib_sources clock watchable calls stdout logged app];
    rewrite ?Ha, ?Hs; reflexivity.
Qed.

(** Once the observer has been stopped, [watch_file] raises at
    [cls.observer.start()] and has done nothing. *)
Lemma watch_file_stopped (path : string) (b : Bound) (s : State) :
  startable s = false ->
  watch_file path b s = (Raise RuntimeError, s).
Proof.
  unfold startable. intros Hs. apply orb_false_elim in Hs as [Ha Hn].
  cbv beta iota zeta delta
      [watch_file stop_watching start_daemon observer_start gets
       bind ret when negb].
  now rewrite Ha, Hn.
Qed.

(** A stopped observer delivers no event. *)
Lemma file_modified_stopped (s : State) (p : string) :
  observer_alive s = false -> file_modified p s = (Ok tt, s).
Proof.
  intros H. unfold file_modified.
  cbv beta iota zeta delta [bind gets ret]. now rewrite H.
Qed.

Lemma stop_watching_run (s : State) :
  stop_watching s
  = (Ok tt, set_observer (observer_alive s) (observer_starts s) [] s).
Proof. reflexivity. Qed.



(** C6 (what the code does).  When the directory of [path] cannot be
    opened, [watch_file] catches the [OSError] and returns normally, no
    watch is left, and the failure is written to standard output with
    [print]; no record reaches [logger].  When the directory opens, the
    watch is there and nothing is printed.  (A call made after the
    observer has been stopped does not get that far: it raises
    [RuntimeError] at [cls.observer.start()] and changes nothing.) *)
Theorem watch_file_unwatchable_prints (path : string) (b : Bound) (s : State) :
  let r := watch_file path b s in
  let directory := PosixPath.dirname path in
  logged (snd r) = logged s /\
  if startable s
  then
    fst r = Ok tt /\
    if watchable s directory
    then observer_watches (snd r) = [directory] /\ stdout (snd r) = stdout s
    else observer_watches (snd r) = [] /\
         stdout (snd r)
         = (stdout s ++ [("Impossible to open dir at " ++ directory)%string])%list
  else
    fst r = Raise RuntimeError /\ snd r = s.
Proof.
  cbv zeta. destruct (startable s) eqn:Hst.
  - rewrite (watch_file_run path b s Hst). cbn [fst snd].
    destruct (watchable s (PosixPath.dirname path)); repeat split.
  - rewrite (watch_file_stopped path b s Hst). repeat split.
Qed.

(** Modifications nobody listens to can be left out of what happens. *)
Lemma happen_all_deaf (hs : list Happening) :
  forall s,
    (forall st p, same_watch s st -> In (Modified p) hs ->
                  file_modified p st = (Ok tt, st)) ->
    exec (happen_all hs) s = exec (happen_all (filter is_elapse hs)) s.
Proof.
  induction hs as [|h rest IH]; intros s Hdeaf; [reflexivity|].
  change (happen_all (h :: rest)) with (happen h ;;; happen_all rest).
  destruct h as [p|dt]; cbn [filter is_elapse happen].
  - assert (E : file_modified p s = (Ok tt, s))
      by (apply Hdeaf; [apply same_watch_refl | now left]).
    rewrite (exec_bind _ _ s tt) by now rewrite E.
    replace (exec (file_modified p) s) with s by (unfold exec; now rewrite E).
    apply IH. intros st q Hst Hin. apply Hdeaf; [exact Hst | now right].
  - change (happen_all (Elapse dt :: filter is_elapse rest))
      with (advance dt ;;; happen_all (filter is_elapse rest)).
    destruct (advance_total dt s) as (T1 & T2 & _).
    rewrite !(exec_bind _ _ s tt) by exact T1.
    apply IH. intros st q Hst Hin. apply Hdeaf; [|now right].
    apply (same_watch_trans s (exec (advance dt) s)); assumption.
Qed.

(** With no timer pending, time alone runs no callback. *)
Lemma elapse_idle (hs : list Happening) :
  forall s, glib_sources s = [] ->
            calls (exec (happen_all (filter is_elapse hs)) s) = calls s.
Proof.
  induction hs as [|h rest IH]; intros s Hs; [reflexivity|].
  destruct h as [p|dt]; cbn [filter is_elapse]; [now apply IH|].
  change (happen_all (Elapse dt :: filter is_elapse rest))
    with (advance dt ;;; happen_all (filter is_elapse rest)).
  rewrite (exec_bind _ _ s tt) by now rewrite advance_idle.
  unfold exec at 2. rewrite advance_idle by exact Hs. cbn [snd].
  now rewrite IH.
Qed.

(** C5.  Once [stop_watching] has returned, a modification of any path
    changes nothing: it schedules no timer and runs no callback.  Whatever
    modifications and ticks follow, the state is the one the ticks alone
    lead to; and when no timer was pending at the stop, no callback runs
    at all. *)
Theorem stop_watching_silences (s : State) (hs : list Happening) :
  let s' := exec stop_watching s in
  fst (stop_watching s) = Ok tt /\
  observer_watches s' = [] /\
  (forall p, file_modified p s' = (Ok tt, s')) /\
  exec (happen_all hs) s' = exec (happen_all (filter is_elapse hs)) s' /\
  match glib_sources s with
  | [] => calls (exec (happen_all hs) s') = calls s
  | _ :: _ => calls s' = calls s
  end.
Proof.
  cbv zeta.
  change (exec stop_watching s)
    with (set_observer (observer_alive s) (observer_starts s) [] s).
  rewrite stop_watching_run. cbn [fst].
  set (s' := set_observer _ _ _ s).
  assert (Hdeaf : forall st p, same_watch s' st -> file_modified p st = (Ok tt, st)).
  { intros st p (_ & _ & Hw & _). apply file_modified_unwatched.
    rewrite Hw. reflexivity. }
  assert (E : exec (happen_all hs) s' = exec (happen_all (filter is_elapse hs)) s').
  { apply happen_all_deaf. intros st p Hst _. now apply Hdeaf. }
  repeat split.
  - intros p. apply Hdeaf, same_watch_refl.
  - exact E.
  - destruct (glib_sources s) eqn:Hs.
    + rewrite E. now rewrite elapse_idle.
    + reflexivity.
Qed.

End WatchFacts.

Section CancellationFacts.
Import PyStr Eff Eff.Notations FileWatcher WatcherSpec.

(** With no timer pending, time alone changes nothing but the clock. *)
Lemma elapse_idle_state (hs : list Happening) :
  forall s, glib_sources s = [] ->
            let s2 := exec (happen_all (filter is_elapse hs)) s in
            calls s2 = calls s /\ glib_sources s2 = [] /\
            timeout s2 = timeout s.
Proof.
  induction hs as [|h rest IH]; intros s Hs; [now repeat split|].
  destruct h as [p|dt]; cbn [filter is_elapse]; [now apply IH|].
  change (happen_all (Elapse dt :: filter is_elapse rest))
    with (advance dt ;;; happen_all (filter is_elapse rest)).
  cbv zeta. rewrite (exec_bind _ _ s tt) by now rewrite advance_idle.
  unfold exec at 2 4 6. rewrite advance_idle by exact Hs. cbn [snd].
  apply (IH (set_clock (clock s + dt) s)). exact Hs.
Qed.

(** A pending timer and the passage of time: nothing runs before the main
    loop gets to run at or after the deadline; then the call runs, once. *)
Lemma elapse_armed (b : Bound) (deadline : nat) (hs : list Happening) :
  forall s,
    armed s b deadline ->
    let s2 := exec (happen_all (filter is_elapse hs)) s in
    if expired_by deadline (clock s) hs
    then calls s2 = (calls s ++ [b])%list /\
         glib_sources s2 = [] /\ timeout s2 = 0
    else calls s2 = calls s /\ armed s2 b deadline.
Proof.
  induction hs as [|h rest IH]; intros s A; [now split|].
  destruct h as [p|dt]; cbn [filter is_elapse expired_by]; [now apply IH|].
  change (happen_all (Elapse dt :: filter is_elapse rest))
    with (advance dt ;;; happen_all (filter is_elapse rest)).
  cbv zeta. destruct (advance_total dt s) as (T1 & _).
  rewrite (exec_bind _ _ s tt) by exact T1.
  destruct (deadline <=? clock s + dt)%nat eqn:Hd; cbn [orb].
  - apply Nat.leb_le in Hd. unfold exec at 2 4 6.
    rewrite (advance_fires dt s b deadline A Hd). cbn [snd].
    set (s1 := set_glib _ _ _).
    destruct (elapse_idle_state rest s1 eq_refl) as (I1 & I2 & I3).
    repeat split; assumption.
  - apply Nat.leb_gt in Hd.
    assert (E : exec (advance dt) s = set_clock (clock s + dt) s)
      by (unfold exec; now rewrite (advance_early dt s b deadline A Hd)).
    rewrite E.
    exact (IH (set_clock (clock s + dt) s) A).
Qed.

Lemma timer_survives_deaf
      (s s' : State) (b : Bound) (deadline : nat) (p : string)
      (hs : list Happening) :
  armed s b deadline ->
  timeout s' = timeout s -> glib_sources s' = glib_sources s ->
  glib_next_id s' = glib_next_id s -> calls s' = calls s ->
  clock s' = clock s ->
  (forall st, same_watch s' st -> file_modified p st = (Ok tt, st)) ->
  only_modifies p hs ->
  timer_survives s s' b deadline hs.
Proof.
  intros (Hid & Ht & Hsrc) Et Es En Ec Ek Hdeaf Hhs.
  assert (A : armed s' b deadline).
  { unfold armed. rewrite Et, Es, En. repeat split; assumption. }
  assert (E : exec (happen_all hs) s'
              = exec (happen_all (filter is_elapse hs)) s').
  { apply happen_all_deaf. intros st q Hst Hin.
    unfold only_modifies in Hhs. rewrite Forall_forall in Hhs.
    specialize (Hhs _ Hin). cbn in Hhs. subst q. now apply Hdeaf. }
  unfold timer_survives. split; [exact A | split; [exact Ec | split]].
  - exact E.
  - cbv zeta. rewrite E, <- Ek, <- Ec. exact (elapse_armed b deadline hs s' A).
Qed.

(** C2 (as amended).  [stop_watching], and [watch_file] on another path,
    do not cancel a pending timer.  [stop_watching] removes every watch;
    [watch_file] replaces the watch by the one for the new path, or, once
    the observer has been stopped, raises [RuntimeError] and changes
    nothing.  Either way [cls.timeout] and the main loop are left alone and
    no callback runs in the call.  As long as only modifications of the old
    path and the passage of time follow, those modifications schedule
    nothing, and the timer stays pending until the main loop first runs at
    or after its deadline: then the call it holds, bound to the old path,
    runs exactly once and the timer is gone. *)
Theorem pending_timer_survives
        (s : State) (b1 : Bound) (deadline : nat) (P1 P2 : string) (b2 : Bound)
        (hs : list Happening) :
  armed s b1 deadline ->
  P2 <> P1 ->
  only_modifies P1 hs ->
  (fst (stop_watching s) = Ok tt /\
   observer_watches (exec stop_watching s) = [] /\
   timer_survives s (exec stop_watching s) b1 deadline hs) /\
  (let r := watch_file P2 b2 s in
   let directory := PosixPath.dirname P2 in
   (if startable s
    then fst r = Ok tt /\
         on_modified (snd r) = Lambda P2 b2 /\
         observer_watches (snd r)
         = (if watchable s directory then [directory] else [])
    else fst r = Raise RuntimeError /\ snd r = s) /\
   timer_survives s (snd r) b1 deadline hs).
Proof.
  intros A Hne Hhs. split.
  - split; [reflexivity | split; [reflexivity|]].
    apply (timer_survives_deaf s _ b1 deadline P1); try assumption;
      try reflexivity.
    intros st (_ & _ & Hw & _). apply file_modified_unwatched.
    rewrite Hw. reflexivity.
  - cbv zeta. destruct (startable s) eqn:Hst.
    + rewrite (watch_file_run P2 b2 s Hst). cbn [fst snd].
      destruct (watchable s (PosixPath.dirname P2)).
      * split; [repeat split|].
        apply (timer_survives_deaf s _ b1 deadline P1); try assumption;
          try reflexivity.
        intros st Hs. apply (file_modified_elsewhere st P2 P1 b2).
        -- apply (watching_same_watch _ _ _ _ Hs). repeat split.
        -- congruence.
      * split; [repeat split|].
        apply (timer_survives_deaf s _ b1 deadline P1); try assumption;
          try reflexivity.
        intros st (_ & _ & Hw & _). apply file_modified_unwatched.
        rewrite Hw. reflexivity.
    + rewrite (watch_file_stopped P2 b2 s Hst). cbn [fst snd].
      split; [now split|].
      apply (timer_survives_deaf s _ b1 deadline P1); try assumption;
        try reflexivity.
      unfold startable in Hst. apply orb_false_elim in Hst as [Ha _].
      intros st (Hal & _). apply file_modified_stopped. congruence.
Qed.

Lemma talk_modified_armed : armed talk_modified (reload 1) 200.
Proof. unfold armed. vm_compute. repeat split; discriminate. Defined.

(** C2 (witness): the watch on [talk.pdf] is stopped, or replaced by a
    watch on [notes.pdf], 0 ms after a modification; two more modifications
    of [talk.pdf] follow, 100 ms apart, and the timer expires. *)
Lemma pending_timer_survives_talk :
  let hs := [Modified "/home/u/talk.pdf"; Elapse 100;
             Modified "/home/u/talk.pdf"; Elapse 100] in
  (fst (stop_watching talk_modified) = Ok tt /\
   observer_watches (exec stop_watching talk_modified) = [] /\
   timer_survives talk_modified (exec stop_watching talk_modified)
                  (reload 1) 200 hs) /\
  (let r := watch_file "/home/u/notes.pdf" (reload 2) talk_modified in
   (fst r = Ok tt /\
    on_modified (snd r) = Lambda "/home/u/notes.pdf" (reload 2) /\
    observer_watches (snd r) = ["/home/u"]) /\
   timer_survives talk_modified (snd r) (reload 1) 200 hs).
Proof.
  apply (pending_timer_survives talk_modified (reload 1) 200
           "/home/u/talk.pdf" "/home/u/notes.pdf" (reload 2)).
  - exact talk_modified_armed.
  - discriminate.
  - repeat constructor.
Defined.

(** C2 (counterexample).  A timer is pending for [talk.pdf];
    [stop_watching], or [watch_file] on [notes.pdf], leaves it in the main
    loop, and 200 ms later the callback bound to [talk.pdf] runs. *)
Lemma stop_watching_keeps_pending_timer :
  glib_sources talk_modified
  = [{| source_id := 1; interval := 200; due := 200; data := reload 1 |}] /\
  calls talk_modified = [] /\
  glib_sources (exec stop_watching talk_modified) = glib_sources talk_modified /\
  calls (exec (stop_watching ;;; advance 200) talk_modified) = [reload 1] /\
  glib_sources (exec (watch_file "/home/u/notes.pdf" (reload 2)) talk_modified)
  = glib_sources talk_modified /\
  calls (exec (watch_file "/home/u/notes.pdf" (reload 2) ;;; advance 200)
              talk_modified)
  = [reload 1].
Proof. vm_compute. repeat split. Qed.

End CancellationFacts.

(** ** Screensaver control: the other paths *)
Section ScreensaverMore.
Import PyStr Eff Screensaver ScreensaverSpec MoreSpec.

Ltac run_ss :=
  cbv beta iota zeta delta
      [set_screensaver mac_branch posix_branch windows_branch
       bind ret raise try_except when modify
       get_recorded set_recorded log on_os os_system popen_xset_q
       Popen poll kill OpenKey QueryValueEx SetValueEx
       truthy is_None is_OSError
       IS_POSIX IS_MAC_OS IS_WINDOWS negb andb orb];
  cbn [os dpms_was_enabled logged fst snd].

Ltac ss_fields :=
  repeat first
    [ rewrite run_command_sh_status
    | rewrite run_command_sh_history
    | rewrite run_command_children
    | rewrite run_command_ScreenSaveActive
    | rewrite run_command_dpms
    | rewrite xdg_is_not_xset_off
    | rewrite xdg_is_not_xset_on
    | rewrite read_dpms_status_xset_q
    | rewrite String.eqb_refl
    | progress change ("Disabled" =? "Enabled") with false
    | progress change ("xset +dpms" =? "xset -dpms") with false
    | progress cbv beta iota
    | progress cbn [os dpms_was_enabled logged fst snd with_history
                    with_ScreenSaveActive with_children with_dpms
                    dpms_on sh_status sh_history children ScreenSaveActive
                    reg_openable next_pid getpid suspended] ].

Lemma returncode_fresh (pid : nat) (c : list (nat * (list string * option Z)))
      (entry : list string * option Z) :
  Forall (fun x : nat * (list string * option Z) => fst x <> pid) c ->
  returncode pid (c ++ [(pid, entry)]) = snd entry.
Proof.
  induction c as [|[p [argv rc]] rest IH]; intros H.
  - simpl. rewrite Nat.eqb_refl. now destruct entry.
  - inversion H as [|? ? Hp Hrest]; subst. cbn [fst] in Hp.
    simpl. apply Nat.eqb_neq in Hp. rewrite Hp. now apply IH.
Qed.

Lemma kill_fresh (pid : nat) (c : list (nat * (list string * option Z)))
      (argv : list string) :
  Forall (fun x : nat * (list string * option Z) => fst x <> pid) c ->
  map (fun c : nat * (list string * option Z) =>
         let '(p, (argv, rc)) := c in
         if (p =? pid)%nat
         then (p, (argv, match rc with None => Some (-9)%Z | _ => rc end))
         else c)
      (c ++ [(pid, (argv, None))])
  = (c ++ [(pid, (argv, Some (-9)%Z))])%list.
Proof.
  induction c as [|[p [a rc]] rest IH]; intros H.
  - simpl. now rewrite Nat.eqb_refl.
  - inversion H as [|? ? Hp Hrest]; subst. cbn [fst] in Hp.
    simpl. apply Nat.eqb_neq in Hp. rewrite Hp. now rewrite IH.
Qed.

(** X1.  On Mac OS the first [disable] starts one child,
    [caffeinate -d -w <pid of the program>], and records it; the [enable]
    that follows kills that child and resets the record to [None].  No shell
    command is run and the registry and DPMS are not touched. *)
Theorem mac_disable_enable_caffeinate
        (posix win : bool) (o : OS) (l : list string) (xid : nat) :
  fresh_pid o ->
  let mac := {| IS_POSIX := posix; IS_MAC_OS := true; IS_WINDOWS := win |} in
  let d := set_screensaver mac true xid
             {| os := o; dpms_was_enabled := RNone; logged := l |} in
  let e := set_screensaver mac false xid (snd d) in
  fst d = Ok tt /\
  dpms_was_enabled (snd d) = RPopen (next_pid o) /\
  children (os (snd d)) = (children o ++ [caffeinate o None])%list /\
  fst e = Ok tt /\
  dpms_was_enabled (snd e) = RNone /\
  children (os (snd e)) = (children o ++ [caffeinate o (Some (-9)%Z)])%list /\
  sh_history (os (snd e)) = sh_history o /\
  dpms_on (os (snd e)) = dpms_on o /\
  ScreenSaveActive (os (snd e)) = ScreenSaveActive o /\
  logged (snd e) = l.
Proof.
  intros Hfresh. cbv zeta. unfold caffeinate. run_ss. ss_fields.
  rewrite (returncode_fresh _ _ _ Hfresh). cbn [snd poll_truthy]. ss_fields.
  rewrite (kill_fresh _ _ _ Hfresh). repeat split.
Qed.

(** X1 (witness): the desktop, where no child runs. *)
Lemma mac_disable_enable_caffeinate_desktop :
  let d := set_screensaver macos true 42 (initial desktop) in
  let e := set_screensaver macos false 42 (snd d) in
  fst d = Ok tt /\
  dpms_was_enabled (snd d) = RPopen 100 /\
  children (os (snd d)) = [(100, (["caffeinate"; "-d"; "-w"; "7"], None))] /\
  fst e = Ok tt /\
  dpms_was_enabled (snd e) = RNone /\
  children (os (snd e))
  = [(100, (["caffeinate"; "-d"; "-w"; "7"], Some (-9)%Z))] /\
  sh_history (os (snd e)) = [] /\
  dpms_on (os (snd e)) = true /\
  ScreenSaveActive (os (snd e)) = Some (REG_SZ, "1") /\
  logged (snd e) = [].
Proof.
  exact (mac_disable_enable_caffeinate true false desktop [] 42
           (Forall_nil _)).
Defined.

(** X2.  On Mac OS a [disable] made while a child is recorded does nothing
    as long as that child runs, and also when it has exited with status 0;
    only after the child has exited with another status is a new
    [caffeinate] started and recorded. *)
Theorem mac_disable_again
        (posix win : bool) (o : OS) (pid : nat) (l : list string) (xid : nat) :
  let mac := {| IS_POSIX := posix; IS_MAC_OS := true; IS_WINDOWS := win |} in
  let s := {| os := o; dpms_was_enabled := RPopen pid; logged := l |} in
  let d := set_screensaver mac true xid s in
  fst d = Ok tt /\
  match returncode pid (children o) with
  | None | Some 0%Z => snd d = s
  | Some _ =>
      dpms_was_enabled (snd d) = RPopen (next_pid o) /\
      children (os (snd d)) = (children o ++ [caffeinate o None])%list
  end.
Proof.
  cbv zeta. unfold caffeinate. run_ss.
  destruct o as [dp su st hi ch np gp ro ssa]. ss_fields.
  destruct (returncode pid ch) as [[|p|p]|]; cbn [poll_truthy Z.eqb negb];
    ss_fields; repeat split.
Qed.

(** X3.  On Linux a second [disable] overwrites what the first recorded:
    with [xset -dpms] succeeding, the second call reads "Disabled", the
    record becomes [False], and the [enable] that follows runs no
    [xset +dpms]: DPMS stays off whatever it was at the start. *)
Theorem linux_disable_twice_forgets
        (o : OS) (r0 : Recorded) (l : list string) (xid : nat) :
  sh_status o "xset -dpms" = 0%Z ->
  let d1 := set_screensaver linux true xid
              {| os := o; dpms_was_enabled := r0; logged := l |} in
  let d2 := set_screensaver linux true xid (snd d1) in
  let e := set_screensaver linux false xid (snd d2) in
  dpms_was_enabled (snd d1) = RBool (dpms_on o) /\
  dpms_was_enabled (snd d2) = RBool false /\
  dpms_on (os (snd e)) = false /\
  sh_history (os (snd e))
  = (sh_history o
       ++ [("xdg-screensaver suspend " ++ str_of_nat xid)%string]
       ++ (if dpms_on o then ["xset -dpms"] else [])
       ++ [("xdg-screensaver suspend " ++ str_of_nat xid)%string]
       ++ [("xdg-screensaver resume " ++ str_of_nat xid)%string])%list.
Proof.
  intros Hoff. cbv zeta.
  change (set_screensaver linux true xid) with (posix_branch true xid).
  change (set_screensaver linux false xid) with (posix_branch false xid).
  destruct (linux_disable o r0 l xid) as (_ & D2 & D3 & _ & _ & D6 & D7).
  destruct (posix_branch true xid _) as [rd1 [o1 r1 l1]].
  cbn [fst snd os dpms_was_enabled] in *. subst r1.
  rewrite Hoff in D6. change (0 =? 0)%Z with true in D6. cbv iota in D6.
  destruct (linux_disable o1 (RBool (dpms_on o)) l1 xid)
    as (_ & F2 & F3 & _ & _ & F6 & F7).
  destruct (posix_branch true xid _) as [rd2 [o2 r2 l2]].
  cbn [fst snd os dpms_was_enabled] in *. subst r2.
  rewrite D6 in *. rewrite D3, Hoff in F6. change (0 =? 0)%Z with true in F6.
  cbv iota in F6.
  destruct (linux_enable o2 false l2 xid) as (_ & _ & _ & _ & E5 & E6).
  destruct (posix_branch false xid _) as [re [o3 r3 l3]].
  cbn [fst snd os dpms_was_enabled andb] in *.
  repeat split.
  - congruence.
  - rewrite E6, F7, D7. rewrite <- !app_assoc. cbn [app].
    destruct (dpms_on o); reflexivity.
Qed.

(** X3 (witness): the desktop, DPMS on. *)
Lemma linux_disable_twice_forgets_desktop :
  let d1 := set_screensaver linux true 42 (initial desktop) in
  let d2 := set_screensaver linux true 42 (snd d1) in
  let e := set_screensaver linux false 42 (snd d2) in
  dpms_was_enabled (snd d1) = RBool true /\
  dpms_was_enabled (snd d2) = RBool false /\
  dpms_on (os (snd e)) = false /\
  sh_history (os (snd e))
  = ["xdg-screensaver suspend 42"; "xset -dpms";
     "xdg-screensaver suspend 42"; "xdg-screensaver resume 42"].
Proof.
  exact (linux_disable_twice_forgets desktop RNone [] 42 eq_refl).
Defined.

(** X4.  On Windows likewise: after two [disable] calls the record is
    [False], so [enable] writes nothing back and a screen saver that was
    active ("1") is left switched off ("0"). *)
Theorem windows_disable_twice_forgets
        (o : OS) (r0 : Recorded) (l : list string) (v : string) (xid : nat) :
  reg_openable o = true ->
  ScreenSaveActive o = Some (REG_SZ, v) ->
  let d1 := set_screensaver windows true xid
              {| os := o; dpms_was_enabled := r0; logged := l |} in
  let d2 := set_screensaver windows true xid (snd d1) in
  let e := set_screensaver windows false xid (snd d2) in
  dpms_was_enabled (snd d1) = RBool (v =? "1") /\
  dpms_was_enabled (snd d2) = RBool false /\
  ScreenSaveActive (os (snd e))
  = Some (REG_SZ, if v =? "1" then "0" else v).
Proof.
  intros Hopen Hval. cbv zeta.
  change (set_screensaver windows true xid) with (windows_branch true).
  change (set_screensaver windows false xid) with (windows_branch false).
  destruct (windows_disable o r0 l v Hopen Hval) as (_ & D2 & D3 & _ & _ & D6).
  destruct (windows_branch true _) as [rd1 [o1 r1 l1]].
  cbn [fst snd os dpms_was_enabled] in *. subst r1.
  destruct (windows_disable o1 (RBool (v =? "1")) l1 _ D3 D6)
    as (_ & F2 & F3 & _ & _ & F6).
  destruct (windows_branch true _) as [rd2 [o2 r2 l2]].
  cbn [fst snd os dpms_was_enabled] in *. subst r2.
  assert (Hsecond : ((if v =? "1" then "0" else v) =? "1") = false).
  { destruct (String.eqb_spec v "1") as [->|Hne]; [reflexivity|].
    now apply String.eqb_neq. }
  rewrite Hsecond in *.
  destruct (windows_enable o2 false l2 F3) as (_ & _ & _ & E4).
  destruct (windows_branch false _) as [re [o3 r3 l3]].
  cbn [fst snd os dpms_was_enabled] in *.
  repeat split. now rewrite E4, F6.
Qed.

(** X4 (witness): the desktop, [ScreenSaveActive = "1"]. *)
Lemma windows_disable_twice_forgets_desktop :
  let d1 := set_screensaver windows true 42 (initial desktop) in
  let d2 := set_screensaver windows true 42 (snd d1) in
  let e := set_screensaver windows false 42 (snd d2) in
  dpms_was_enabled (snd d1) = RBool true /\
  dpms_was_enabled (snd d2) = RBool false /\
  ScreenSaveActive (os (snd e)) = Some (REG_SZ, "0").
Proof.
  exact (windows_disable_twice_forgets desktop RNone [] "1" 42 eq_refl eq_refl).
Defined.

(** X5.  On Windows, when the registry key cannot be opened, [disable] and
    [enable] both return normally: the error is caught and logged once, and
    neither the operating system nor the record changes. *)
Theorem windows_access_denied_is_logged
        (must_disable : bool) (o : OS) (r : Recorded) (l : list string)
        (xid : nat) :
  reg_openable o = false ->
  set_screensaver windows must_disable xid
    {| os := o; dpms_was_enabled := r; logged := l |}
  = (Ok tt,
     {| os := o; dpms_was_enabled := r;
        logged := (l ++ ["access denied when trying to access screen saver settings in registry!"])%list |}).
Proof.
  intros Hopen. unfold windows. run_ss. rewrite Hopen.
  destruct o; reflexivity.
Qed.

(** X5 (witness): the locked desktop. *)
Lemma windows_access_denied_is_logged_locked :
  set_screensaver windows true 42 (initial locked_desktop)
  = (Ok tt,
     {| os := locked_desktop; dpms_was_enabled := RNone;
        logged := ["access denied when trying to access screen saver settings in registry!"] |}).
Proof.
  exact (windows_access_denied_is_logged true locked_desktop RNone [] 42 eq_refl).
Defined.

(** X6.  On Windows a [disable] that finds no [ScreenSaveActive] value
    catches the error and logs it; one that finds a value of another type
    than [REG_SZ] fails its assertion, and the [AssertionError] reaches the
    caller with nothing logged.  Either way nothing is written and the record
    is left as it was. *)
Theorem windows_disable_unreadable_value
        (o : OS) (r : Recorded) (l : list string) (xid : nat) :
  reg_openable o = true ->
  let s := {| os := o; dpms_was_enabled := r; logged := l |} in
  let d := set_screensaver windows true xid s in
  match ScreenSaveActive o with
  | None =>
      fst d = Ok tt /\ os (snd d) = o /\ dpms_was_enabled (snd d) = r /\
      logged (snd d)
      = (l ++ ["access denied when trying to access screen saver settings in registry!"])%list
  | Some (REG_SZ, v) =>
      fst d = Ok tt /\ dpms_was_enabled (snd d) = RBool (v =? "1")
  | Some (_, _) =>
      fst d = Raise AssertionError /\ os (snd d) = o /\
      dpms_was_enabled (snd d) = r /\ logged (snd d) = l
  end.
Proof.
  intros Hopen. cbv zeta. unfold windows. run_ss.
  destruct o as [dp su st hi ch np gp ro ssa]. cbn [reg_openable] in Hopen.
  subst ro. ss_fields.
  destruct ssa as [[[| |] v]|]; cbn [RegType_eqb]; ss_fields;
    try (destruct (v =? "1"); ss_fields); repeat split.
Qed.

(** X6 (witness): the value stored as a [REG_DWORD]. *)
Lemma windows_disable_unreadable_value_dword :
  let d := set_screensaver windows true 42 (initial dword_desktop) in
  fst d = Raise AssertionError /\ os (snd d) = dword_desktop /\
  dpms_was_enabled (snd d) = RNone /\ logged (snd d) = [].
Proof.
  exact (windows_disable_unreadable_value dword_desktop RNone [] 42 eq_refl).
Defined.

(** Split on the conditions the state after a call still depends on. *)
Ltac split_cases :=
  repeat (ss_fields;
          match goal with
          | |- context [if ?b then _ else _] => destruct b eqn:?
          | |- context [match ?x with None => _ | Some _ => _ end] =>
              destruct x eqn:?
          end);
  ss_fields.

(** X7.  What each platform's branch leaves alone, whatever the call and
    the state: on Mac OS no shell command is run, DPMS, the registry and the
    log are untouched; on Linux no process is started or killed and the
    registry is untouched; on Windows and on an unsupported system no shell
    command is run, DPMS is untouched and no process is started or killed. *)
Theorem set_screensaver_stays_on_its_platform
        (pf : Platform) (must_disable : bool) (xid : nat) (s : State) :
  let s' := snd (set_screensaver pf must_disable xid s) in
  if IS_MAC_OS pf
  then sh_history (os s') = sh_history (os s) /\
       dpms_on (os s') = dpms_on (os s) /\
       suspended (os s') = suspended (os s) /\
       ScreenSaveActive (os s') = ScreenSaveActive (os s) /\
       logged s' = logged s
  else if IS_POSIX pf
  then children (os s') = children (os s) /\
       ScreenSaveActive (os s') = ScreenSaveActive (os s)
  else sh_history (os s') = sh_history (os s) /\
       dpms_on (os s') = dpms_on (os s) /\
       suspended (os s') = suspended (os s) /\
       children (os s') = children (os s).
Proof.
  destruct pf as [posix mac win], s as [o r l]. cbv zeta.
  cbn [IS_MAC_OS IS_POSIX IS_WINDOWS os logged].
  destruct mac; [| destruct posix; [| destruct win]].
  - destruct must_disable, r as [|b|pid]; run_ss; try destruct b;
      split_cases; repeat split.
  - destruct must_disable; run_ss; split_cases; repeat split.
  - destruct o as [dp su st hi ch np gp ro ssa].
    destruct ro, must_disable; run_ss; ss_fields;
      try (destruct ssa as [[[| |] v]|]; cbn [RegType_eqb]; ss_fields);
      split_cases; repeat split.
  - run_ss. repeat split.
Qed.

Lemma xdg_warning (verb w : string) (status : Z) :
  warning_of ("xdg-screensaver " ++ verb ++ " " ++ w) status
  = "Could not set screensaver status: got status " ++ str_of_Z status.
Proof. reflexivity. Qed.

Lemma xset_off_warning (status : Z) :
  warning_of "xset -dpms" status
  = "Could not disable DPMS screen blanking: got status " ++ str_of_Z status.
Proof. reflexivity. Qed.

Lemma xset_on_warning (status : Z) :
  warning_of "xset +dpms" status
  = "Could not enable DPMS screen blanking: got status " ++ str_of_Z status.
Proof. reflexivity. Qed.

(** Compare the commands run and the warnings logged with the list given. *)
Ltac check_log H1 H2 :=
  cbn [filter map]; rewrite ?H1, ?H2; cbn [filter map];
  rewrite ?xdg_warning, ?xset_off_warning, ?xset_on_warning;
  rewrite <- ?app_assoc, ?app_nil_r; split; reflexivity.

(** X8.  On Linux the log tells which commands failed: a call appends to
    the log one warning for each shell command it ran that exited with a
    status other than zero, carrying that status, in the order of the
    commands; commands that succeed leave no record. *)
Theorem linux_logs_failed_commands
        (must_disable : bool) (xid : nat) (s : State) :
  let s' := snd (set_screensaver linux must_disable xid s) in
  exists cmds,
    sh_history (os s') = (sh_history (os s) ++ cmds)%list /\
    logged s' = (logged s ++ warnings (os s) cmds)%list.
Proof.
  destruct s as [o r l]. cbv zeta.
  change (set_screensaver linux must_disable xid)
    with (posix_branch must_disable xid).
  cbn [os logged]. unfold warnings.
  destruct must_disable.
  - run_ss.
    destruct (sh_status o _ =? 0)%Z eqn:H1; ss_fields;
      destruct (dpms_on o) eqn:Hd; ss_fields;
      try (destruct (sh_status o "xset -dpms" =? 0)%Z eqn:H2; ss_fields).
    all: first
      [ exists [("xdg-screensaver " ++ "suspend" ++ " " ++ str_of_nat xid)%string;
                "xset -dpms"]; check_log H1 H2
      | exists [("xdg-screensaver " ++ "suspend" ++ " " ++ str_of_nat xid)%string];
        check_log H1 H1 ].
  - run_ss.
    destruct (sh_status o _ =? 0)%Z eqn:H1; ss_fields;
      destruct r as [|[|]|pid]; ss_fields;
      try (destruct (sh_status o "xset +dpms" =? 0)%Z eqn:H2; ss_fields).
    all: first
      [ exists [("xdg-screensaver " ++ "resume" ++ " " ++ str_of_nat xid)%string;
                "xset +dpms"]; check_log H1 H2
      | exists [("xdg-screensaver " ++ "resume" ++ " " ++ str_of_nat xid)%string];
        check_log H1 H1 ].
Qed.

(** X9.  Reading the DPMS status from the output of [xset q]: the first
    line that mentions "DPMS is" decides, by its last word, whatever lines
    follow; when no line mentions it the status is "Disabled", so that
    [disable] records [False] and changes nothing. *)
Theorem read_dpms_status_first_mention (pre : list string) :
  Forall (fun line => contains "DPMS is" line = false) pre ->
  read_dpms_status pre = "Disabled" /\
  forall line post,
    contains "DPMS is" line = true ->
    read_dpms_status (pre ++ line :: post) = last (words line) "".
Proof.
  induction 1 as [|first rest Hfirst _ [IH1 IH2]].
  - split; [reflexivity|]. intros line post Hline. simpl. now rewrite Hline.
  - split.
    + simpl. now rewrite Hfirst.
    + intros line post Hline. simpl. rewrite Hfirst. now apply IH2.
Qed.

(** X9 (witness): an X server that reports the extension after a header. *)
Lemma read_dpms_status_first_mention_xset :
  read_dpms_status ["DPMS (Energy Star):"; "  Standby: 600"] = "Disabled" /\
  forall line post,
    contains "DPMS is" line = true ->
    read_dpms_status (["DPMS (Energy Star):"; "  Standby: 600"] ++ line :: post)
    = last (words line) "".
Proof.
  apply (read_dpms_status_first_mention
           ["DPMS (Energy Star):"; "  Standby: 600"]).
  repeat constructor.
Defined.

End ScreensaverMore.

(** ** The file watcher: invariants and further behaviour *)
Section WatcherMoreFacts.
Import PyStr Eff Eff.Notations FileWatcher WatcherSpec WatcherMore.

Lemma notify_watches_frame (evt : Event) (ws : list string) :
  forall s, same_watch s (snd (notify_watches ws evt s)) /\
            calls (snd (notify_watches ws evt s)) = calls s /\
            fst (notify_watches ws evt s) = Ok tt.
Proof.
  induction ws as [|w rest IH]; intros s; [repeat split|].
  change (notify_watches (w :: rest) evt)
    with ((if w =? PosixPath.dirname (src_path evt)
           then h <- gets on_modified ;; run_handler h evt
           else ret tt) ;;;
          notify_watches rest evt).
  unfold bind at 1.
  destruct (w =? PosixPath.dirname (src_path evt)); [|now apply IH].
  cbv beta iota zeta delta [bind gets]. unfold run_handler.
  destruct (on_modified s) as [|path b]; [now apply IH|].
  destruct (src_path evt =? path); [|now apply IH].
  rewrite enqueue_run.
  match goal with |- context [notify_watches rest evt ?x] =>
    destruct (IH x) as (I1 & I2 & I3); set (s1 := x) in * end.
  split; [|split; [|exact I3]].
  - apply (same_watch_trans s s1); [repeat split | exact I1].
  - now rewrite I2.
Qed.

Lemma file_modified_frame (p : string) (s : State) :
  same_watch s (exec (file_modified p) s) /\
  calls (exec (file_modified p) s) = calls s /\
  fst (file_modified p s) = Ok tt.
Proof.
  unfold exec, file_modified. cbv beta iota zeta delta [bind gets ret].
  destruct (observer_alive s); [apply notify_watches_frame | repeat split].
Qed.

Lemma stop_daemon_run (wait : bool) (s : State) :
  stop_daemon wait s
  = (Ok tt, set_observer false (observer_starts s) [] s).
Proof.
  cbv beta iota zeta delta
      [stop_daemon observer_unschedule_all observer_stop gets bind ret
       when modify].
  cbn [observer_alive observer_starts observer_watches set_observer].
  destruct (observer_alive s) eqn:Ha; unfold set_observer;
    cbn [timeout on_modified observer_alive observer_starts observer_watches
         glib_next_id glib_sources clock watchable calls stdout logged];
    [reflexivity|].
  destruct s; cbn in *; subst; reflexivity.
Qed.

Lemma single_watch_same (s s' : State) :
  same_watch s s' -> single_watch s -> single_watch s'.
Proof.
  intros Hs [He | (path & b & W)].
  - left. destruct Hs as (_ & _ & Hw & _). congruence.
  - right. exists path, b. exact (watching_same_watch _ _ _ _ Hs W).
Qed.

Lemma reachable_single_watch (s : State) : Reachable s -> single_watch s.
Proof.
  induction 1 as [fs | s path b _ IH | s _ IH | s wait _ IH | s b _ IH
                  | s p _ IH | s dt _ IH].
  - now left.
  - unfold exec. destruct (startable s) eqn:Hst.
    + rewrite (watch_file_run path b s Hst). cbn [snd].
      destruct (watchable s (PosixPath.dirname path)).
      * right. exists path, b. repeat split.
      * now left.
    + now rewrite (watch_file_stopped path b s Hst).
  - now left.
  - left. unfold exec. now rewrite stop_daemon_run.
  - exact (single_watch_same _ _ (enqueue_same_watch b s) IH).
  - destruct (file_modified_frame p s) as (F & _).
    exact (single_watch_same _ _ F IH).
  - destruct (advance_total dt s) as (_ & F & _).
    exact (single_watch_same _ _ F IH).
Qed.

(** X10.  In every state the class goes through there is at most one
    watch, and when there is one the handler is the filter for the path
    watched in that directory; there is at most one pending timer, a 200 ms
    one, and its id is the non-zero value of [cls.timeout]. *)
Theorem reachable_one_watch_one_timer (s : State) :
  Reachable s ->
  consistent s /\ single_watch s /\
  List.length (observer_watches s) <= 1 /\
  List.length (glib_sources s) <= 1.
Proof.
  intros R. pose proof (reachable_consistent s R) as Hc.
  pose proof (reachable_single_watch s R) as Hw.
  split; [exact Hc | split; [exact Hw | split]].
  - destruct Hw as [-> | (path & b & _ & -> & _)]; simpl; lia.
  - destruct Hc as [_ Hc].
    destruct (glib_sources s) as [|a [|a' rest]]; simpl in *;
      first [lia | contradiction].
Qed.

Lemma talk_modified_reachable : Reachable talk_modified.
Proof.
  unfold talk_modified.
  rewrite (exec_bind _ _ _ tt) by reflexivity.
  apply reach_file_modified, reach_watch_file, reach_initial.
Defined.

(** X10 (witness): [talk.pdf] watched and modified. *)
Lemma reachable_one_watch_one_timer_talk :
  consistent talk_modified /\ single_watch talk_modified /\
  List.length (observer_watches talk_modified) <= 1 /\
  List.length (glib_sources talk_modified) <= 1.
Proof.
  exact (reachable_one_watch_one_timer talk_modified talk_modified_reachable).
Defined.

(** X11.  The callback only ever runs from the main loop: [watch_file],
    [stop_watching], [stop_daemon], [enqueue] and the delivery of a file
    modification run no callback, in any state. *)
Theorem callback_only_runs_from_main_loop
        (s : State) (path p : string) (b : Bound) (wait : bool) :
  calls (exec (watch_file path b) s) = calls s /\
  calls (exec stop_watching s) = calls s /\
  calls (exec (stop_daemon wait) s) = calls s /\
  calls (exec (enqueue b) s) = calls s /\
  calls (exec (file_modified p) s) = calls s.
Proof.
  split; [|split; [|split; [|split]]].
  - unfold exec. destruct (startable s) eqn:Hst.
    + rewrite (watch_file_run path b s Hst). cbn [snd].
      now destruct (watchable s (PosixPath.dirname path)).
    + now rewrite (watch_file_stopped path b s Hst).
  - reflexivity.
  - unfold exec. now rewrite stop_daemon_run.
  - unfold exec. now rewrite enqueue_run.
  - apply file_modified_frame.
Qed.

(** X12.  [stop_daemon] removes every watch: after it a modification of
    any path changes nothing.  It leaves [cls.timeout] and the main loop
    alone, so a timer that is pending still expires. *)
Theorem stop_daemon_silences (wait : bool) (s : State) (hs : list Happening) :
  let s' := exec (stop_daemon wait) s in
  fst (stop_daemon wait s) = Ok tt /\
  observer_watches s' = [] /\
  timeout s' = timeout s /\ glib_sources s' = glib_sources s /\
  (forall p, file_modified p s' = (Ok tt, s')) /\
  exec (happen_all hs) s' = exec (happen_all (filter is_elapse hs)) s'.
Proof.
  cbv zeta.
  assert (E : exec (stop_daemon wait) s
              = set_observer false (observer_starts s) [] s)
    by (unfold exec; now rewrite stop_daemon_run).
  rewrite E, stop_daemon_run. cbn [fst].
  set (s' := set_observer _ _ _ s).
  assert (Hdeaf : forall st p, same_watch s' st ->
                               file_modified p st = (Ok tt, st)).
  { intros st p (_ & _ & Hw & _). apply file_modified_unwatched.
    rewrite Hw. reflexivity. }
  split; [reflexivity|]. split; [reflexivity|]. split; [reflexivity|].
  split; [reflexivity|]. split.
  - intros p. apply Hdeaf, same_watch_refl.
  - apply happen_all_deaf. intros st p Hst _. now apply Hdeaf.
Qed.

(** X13.  Modifications of other files, in the watched directory or
    elsewhere, neither run nor postpone the callback: whatever is pending,
    the state is the one reached without them. *)
Theorem other_files_are_ignored
        (s : State) (path : string) (b : Bound) (hs : list Happening) :
  watching s path b ->
  never_modifies path hs ->
  exec (happen_all hs) s = exec (happen_all (filter is_elapse hs)) s.
Proof.
  intros W Hhs. apply happen_all_deaf. intros st q Hst Hin.
  unfold never_modifies in Hhs. rewrite Forall_forall in Hhs.
  specialize (Hhs _ Hin). cbn in Hhs.
  apply (file_modified_elsewhere st path q b); [|exact Hhs].
  exact (watching_same_watch _ _ _ _ Hst W).
Qed.

Lemma talk_modified_watching :
  watching talk_modified "/home/u/talk.pdf" (reload 1).
Proof. vm_compute. repeat split. Defined.

(** X13 (witness): [notes.pdf] is written twice while the timer for
    [talk.pdf] is pending. *)
Lemma other_files_are_ignored_talk :
  exec (happen_all [Modified "/home/u/notes.pdf"; Elapse 150;
                    Modified "/home/u/notes.pdf"; Elapse 50]) talk_modified
  = exec (happen_all [Elapse 150; Elapse 50]) talk_modified.
Proof.
  apply (other_files_are_ignored talk_modified "/home/u/talk.pdf" (reload 1)
           [Modified "/home/u/notes.pdf"; Elapse 150;
            Modified "/home/u/notes.pdf"; Elapse 50]).
  - exact talk_modified_watching.
  - repeat constructor; discriminate.
Defined.

Lemma repeat_snoc {A : Type} (x : A) (n : nat) :
  (repeat x n ++ [x])%list = x :: repeat x n.
Proof. induction n as [|n IH]; simpl; [reflexivity | now rewrite IH]. Qed.

(** Modifications at least 200 ms apart: each finds the timer of the one
    before expired, and arms a new one. *)
Lemma modified_again_spaced (path : string) (b : Bound) (gaps : list nat) :
  forall s,
    armed s (user_data b) (clock s + 200) -> watching s path b ->
    Forall (fun gap => 200 <= gap) gaps ->
    let s' := exec (modified_again path gaps) s in
    armed s' (user_data b) (clock s' + 200) /\ watching s' path b /\
    calls s' = (calls s ++ repeat (user_data b) (List.length gaps))%list.
Proof.
  induction gaps as [|gap rest IH]; intros s A W Hgaps.
  - cbv zeta. cbn. rewrite app_nil_r. repeat split; try apply A; apply W.
  - inversion Hgaps as [|? ? Hgap Hrest]; subst.
    assert (Hfire := advance_fires gap s (user_data b) _ A ltac:(lia)).
    set (s1 := set_glib (glib_next_id s) []
                 (set_calls (calls s ++ [user_data b])
                    (set_timeout 0 (set_clock (clock s + gap) s)))) in *.
    assert (W1 : watching s1 path b) by exact W.
    assert (Hc1 : consistent s1) by (split; [apply A | exact I]).
    set (s2 := exec (enqueue b) s1).
    assert (E : exec (modified_again path (gap :: rest)) s
                = exec (modified_again path rest) s2).
    { change (modified_again path (gap :: rest))
        with (advance gap ;;; file_modified path ;;; modified_again path rest).
      rewrite (exec_bind _ _ s tt) by now rewrite Hfire.
      replace (exec (advance gap) s) with s1 by (unfold exec; now rewrite Hfire).
      rewrite (exec_bind _ _ s1 tt)
        by (rewrite (file_modified_watched s1 path b W1); apply enqueue_ok).
      unfold exec at 2. now rewrite (file_modified_watched s1 path b W1). }
    cbv zeta. rewrite E.
    destruct (enqueue_arms b s1 Hc1) as (A2 & C1 & C2 & _).
    fold s2 in A2, C1, C2. rewrite <- C2 in A2.
    assert (W2 : watching s2 path b)
      by exact (watching_same_watch _ _ _ _ (enqueue_same_watch b s1) W1).
    destruct (IH s2 A2 W2 Hrest) as (I1 & I2 & I3).
    split; [exact I1 | split; [exact I2 |]].
    rewrite I3, C1. subst s1. cbn [calls set_glib set_calls].
    rewrite <- app_assoc. reflexivity.
Qed.

(** X14.  Changes that are not rapid are not merged: when each
    modification of the watched path comes 200 ms or more after the one
    before, every one of them gets its own callback, run with the
    positional arguments [watch_file] bound (keyword arguments are not
    handed on). *)
Theorem spaced_modifications_each_run
        (s : State) (path : string) (b : Bound) (gaps : list nat) (D : nat) :
  consistent s ->
  watching s path b ->
  Forall (fun gap => 200 <= gap) gaps ->
  200 <= D ->
  calls (exec (advance D) (exec (burst path gaps) s))
  = (calls s ++ repeat (user_data b) (S (List.length gaps)))%list.
Proof.
  intros Hc W Hgaps HD.
  destruct (enqueue_arms b s Hc) as (A & C1 & C2 & _).
  set (s0 := exec (enqueue b) s) in *. rewrite <- C2 in A.
  assert (W0 : watching s0 path b)
    by exact (watching_same_watch _ _ _ _ (enqueue_same_watch b s) W).
  assert (E : exec (burst path gaps) s = exec (modified_again path gaps) s0).
  { unfold burst.
    rewrite (exec_bind _ _ s tt)
      by (rewrite (file_modified_watched s path b W); apply enqueue_ok).
    unfold exec at 2. now rewrite (file_modified_watched s path b W). }
  rewrite E.
  destruct (modified_again_spaced path b gaps s0 A W0 Hgaps) as (A1 & _ & C3).
  unfold exec at 1. rewrite (advance_fires D _ (user_data b) _ A1) by lia.
  cbn [snd calls set_glib set_calls]. rewrite C3, C1.
  rewrite <- app_assoc, repeat_snoc. reflexivity.
Qed.

(** X14 (witness): [talk.pdf] is written three times, 200 and 500 ms
    apart. *)
Lemma spaced_modifications_each_run_talk :
  calls (exec (advance 200)
              (exec (burst "/home/u/talk.pdf" [200; 500]) talk_watched))
  = [reload 1; reload 1; reload 1].
Proof.
  apply (spaced_modifications_each_run talk_watched "/home/u/talk.pdf"
           (reload 1) [200; 500] 200).
  - vm_compute. split; [discriminate | exact I].
  - vm_compute. repeat split.
  - repeat (apply Forall_cons; [simpl; lia|]). apply Forall_nil.
  - lia.
Defined.

(** X15.  Watching a new path and then changing it: whatever timer an
    earlier watch left pending is cancelled by the first modification, and
    the only callback that runs is the new one, once, with the positional
    arguments bound (keyword arguments are not handed on).  The observer
    must be running or never have been started, and the directory of the
    new path must be one it can open. *)
Theorem watch_then_modify_runs_new_callback_only
        (s : State) (path : string) (b : Bound) (gaps : list nat) (D : nat) :
  consistent s ->
  startable s = true ->
  watchable s (PosixPath.dirname path) = true ->
  Forall (fun gap => gap < 200) gaps ->
  200 <= D ->
  let s1 := exec (burst path gaps) (exec (watch_file path b) s) in
  let s2 := exec (advance D) s1 in
  calls s1 = calls s /\
  calls s2 = (calls s ++ [user_data b])%list /\
  timeout s2 = 0 /\ glib_sources s2 = [].
Proof.
  intros Hc Hst Hw Hgaps HD. cbv zeta.
  assert (Ew : exec (watch_file path b) s
               = set_observer true
                   (if observer_alive s then observer_starts s
                    else S (observer_starts s))
                   [PosixPath.dirname path]
                   (set_on_modified (Lambda path b) s)).
  { unfold exec. rewrite (watch_file_run path b s Hst). cbn [snd].
    now rewrite Hw. }
  rewrite Ew. set (sw := set_observer _ _ _ _).
  assert (W : watching sw path b) by (repeat split).
  assert (Hcw : consistent sw) by exact Hc.
  assert (E : exec (burst path gaps) sw
              = exec (enqueue b ;;; enqueue_again (map (fun gap => (gap, b)) gaps)) sw).
  { unfold burst, exec, bind.
    rewrite (file_modified_watched sw path b W), enqueue_run.
    rewrite (modified_again_enqueues path b); [reflexivity|].
    apply (watching_same_watch sw); [|exact W].
    pose proof (enqueue_same_watch b sw) as Q. unfold exec in Q.
    now rewrite enqueue_run in Q. }
  rewrite E.
  assert (Hg : Forall (fun gb : nat * Bound => fst gb < 200)
                      (map (fun gap => (gap, b)) gaps))
    by (apply Forall_map; exact Hgaps).
  destruct (enqueue_burst_fires_once sw b _ D Hcw Hg HD)
    as (R1 & _ & R3 & R4 & R5 & _).
  rewrite last_same_bound in R3. repeat split; assumption.
Qed.

(** X15 (witness): a timer for [talk.pdf] is pending when [notes.pdf]
    becomes the watched file, bound with a keyword argument, and is written
    twice. *)
Lemma watch_then_modify_runs_new_callback_only_notes :
  let s1 := exec (burst "/home/u/notes.pdf" [100])
                 (exec (watch_file "/home/u/notes.pdf" (reload_forced 2))
                       talk_modified) in
  let s2 := exec (advance 200) s1 in
  calls s1 = calls talk_modified /\
  calls s2 = (calls talk_modified ++ [reload 2])%list /\
  timeout s2 = 0 /\ glib_sources s2 = [].
Proof.
  apply (watch_then_modify_runs_new_callback_only talk_modified
           "/home/u/notes.pdf" (reload_forced 2) [100] 200).
  - exact (armed_consistent _ _ _ talk_modified_armed).
  - vm_compute. reflexivity.
  - vm_compute. reflexivity.
  - repeat (apply Forall_cons; [simpl; lia|]). apply Forall_nil.
  - lia.
Defined.

End WatcherMoreFacts.

(** ** Resource lookup: the other resources *)
Section ResourcesMoreFacts.
Import PyStr PathSpec Resources ResourcesMore.

Lemma free_of_single_piece (c : ascii) (s : string) :
  split_char c s = [s] -> free_of c s.
Proof.
  intros H a b E. rewrite E, split_char_app_sep in H.
  pose proof (split_char_nonempty c a) as Ha.
  pose proof (split_char_nonempty c b) as Hb.
  destruct (split_char c a) as [|x [|y l]]; [contradiction| |];
    destruct (split_char c b); try contradiction; discriminate.
Qed.

Lemma drop_app_exact (p rest : string) :
  drop (String.length p) (p ++ rest) = rest.
Proof. induction p as [|a p IH]; simpl; [now destruct rest | exact IH]. Qed.

Lemma length_append (a b : string) :
  String.length (a ++ b) = String.length a + String.length b.
Proof. induction a as [|x a IH]; simpl; [reflexivity | now rewrite IH]. Qed.

Lemma lower_char_dot (c : ascii) : lower_char c = dot -> c = dot.
Proof.
  destruct c as [[] [] [] [] [] [] [] []]; intros H;
    first [reflexivity | vm_compute in H; discriminate H].
Qed.

Lemma lower_char_not_dot (c x : ascii) :
  lower_char c = x -> x <> dot -> c <> dot.
Proof. intros H Hx ->. apply Hx. rewrite <- H. reflexivity. Qed.

(** An extension that reads [.png] up to case: a dot and three letters. *)
Lemma lower_png (ext : string) :
  lower ext = ".png" ->
  exists x, ext = String dot x /\ free_of dot x /\ String.length x = 3.
Proof.
  destruct ext as [|c0 [|c1 [|c2 [|c3 [|c4 rest]]]]]; simpl; try discriminate.
  intros H. injection H as H0 H1 H2 H3.
  apply lower_char_dot in H0. subst c0.
  exists (String c1 (String c2 (String c3 ""))). split; [reflexivity|].
  split; [|reflexivity].
  apply free_of_cons; [apply (lower_char_not_dot _ _ H1); discriminate|].
  apply free_of_cons; [apply (lower_char_not_dot _ _ H2); discriminate|].
  apply free_of_cons; [apply (lower_char_not_dot _ _ H3); discriminate|].
  apply free_of_empty.
Qed.

(** The root of a name that starts with [pympress-] and ends in a dotted
    extension starts with [pympress-] itself. *)
Lemma root_keeps_prefix (root x rest : string) :
  root ++ String dot x = "pympress-" ++ rest ->
  exists stem, root = "pympress-" ++ stem.
Proof.
  intros H. unfold dot in H.
  do 9 (destruct root as [|? root];
        [simpl in H; discriminate H | simpl in H; injection H as -> H]).
  now exists root.
Qed.

Lemma skip_dots_no_leading_dot (i : string) (k : nat) :
  k <> 0 -> take 1 i <> "." ->
  PosixPath.skip_dots i k 0 k = (take k i, drop k i).
Proof.
  intros Hk Hi. destruct k as [|f]; [congruence|].
  change (PosixPath.skip_dots i (S f) 0 (S f))
    with (if negb (take 1 (drop 0 i) =? ".")
          then (take (S f) i, drop (S f) i)
          else PosixPath.skip_dots i (S f) 1 f).
  replace (drop 0 i) with i by now destruct i.
  apply String.eqb_neq in Hi. now rewrite Hi.
Qed.

(** X16.  Which directory entries are icons: an entry (a name without
    slash) is kept by [list_icons] exactly when it reads
    [pympress-<stem><ext>] with [<ext>] equal to [.png] up to the case of
    its letters; the prefix is compared as it is. *)
Theorem is_icon_name_iff (i : string) :
  free_of slash i ->
  is_icon_name i = true <->
  exists stem ext, i = "pympress-" ++ stem ++ ext /\ lower ext = ".png".
Proof.
  intros Hfree. rewrite is_icon_name_spec. split.
  - intros [Hext [rest Hpre]].
    pose proof (splitext_concat i) as Hcat.
    remember (fst (PosixPath.splitext i)) as root eqn:Er.
    remember (snd (PosixPath.splitext i)) as ext eqn:Ee.
    destruct (lower_png _ Hext) as (x & Ex & _ & _).
    assert (Hc : root ++ String dot x = "pympress-" ++ rest)
      by (rewrite <- Ex, Hcat; exact Hpre).
    destruct (root_keeps_prefix _ _ _ Hc) as [stem Hroot].
    exists stem, ext. split; [|exact Hext].
    transitivity (root ++ ext); [symmetry; exact Hcat|].
    rewrite Hroot. apply append_assoc.
  - intros (stem & ext & Hi & Hext).
    destruct (lower_png _ Hext) as (x & Ex & Hx & _).
    split; [|now exists (stem ++ ext)].
    set (pre := "pympress-" ++ stem).
    assert (Hi' : i = pre ++ ext) by (unfold pre; now rewrite append_assoc).
    assert (Hsplit : PosixPath.splitext i = (pre, ext)).
    { unfold PosixPath.splitext.
      assert (Hs : rfind slash i = (-1)%Z)
        by (unfold rfind; now apply rfind_from_free).
      assert (Hd : rfind dot i = Z.of_nat (String.length pre)).
      { unfold rfind. rewrite Hi', Ex, rfind_from_app.
        change (rfind_from dot (String dot x) ?k ?l)
          with (rfind_from dot x (k + 1) (if Ascii.eqb dot dot then k else l)).
        rewrite Ascii.eqb_refl, rfind_from_free by exact Hx. lia. }
      rewrite Hs, Hd.
      assert (Hlt : (-1 <? Z.of_nat (String.length pre))%Z = true)
        by (apply Z.ltb_lt; lia).
      rewrite Hlt. rewrite Nat2Z.id.
      change (Z.to_nat (-1 + 1)) with 0. rewrite Nat.sub_0_r.
      rewrite skip_dots_no_leading_dot.
      - rewrite Hi'. now rewrite take_app_exact, drop_app_exact.
      - unfold pre. discriminate.
      - rewrite Hi'. unfold pre. discriminate. }
    now rewrite Hsplit.
Qed.

(** X16 (witness): an icon with an upper-case extension. *)
Lemma is_icon_name_iff_upper :
  is_icon_name "pympress-32.PNG" = true <->
  exists stem ext, "pympress-32.PNG" = "pympress-" ++ stem ++ ext /\
                   lower ext = ".png".
Proof.
  apply (is_icon_name_iff "pympress-32.PNG").
  apply free_of_single_piece. reflexivity.
Defined.

Lemma join_last (base : string) (parts : list string) (name : string) :
  PosixPath.join base (parts ++ [name])
  = PosixPath.join_step (PosixPath.join base parts) name.
Proof. unfold PosixPath.join. now rewrite fold_left_app. Qed.

(** A file directly inside a directory whose name ends in [pixmaps]. *)
Lemma join_step_pixmaps (x name : string) :
  free_of slash name ->
  PosixPath.join_step (PosixPath.join_step x "pixmaps") name
  = PosixPath.join_step x "pixmaps" ++ "/" ++ name.
Proof.
  intros Hname.
  rewrite (join_step_relative _ name) by now apply free_of_startswith.
  rewrite (join_step_relative x "pixmaps") by reflexivity.
  rewrite dir_prefix_closed by (try discriminate; reflexivity).
  now rewrite !append_assoc.
Qed.

(** The directory listed is the directory the path resolves to. *)
Lemma resource_list_of_path (env : Env) (parts : list string) :
  __get_resource_list env parts
  = match __get_resource_path env parts with
    | Ok dir => os_listdir env dir
    | Raise e => Raise e
    end.
Proof.
  unfold __get_resource_list, __get_resource_path, resource_listdir.
  now destruct (sys_frozen env).
Qed.

(** The path of a file of the pixmaps directory is the path of the
    directory followed by the name of the file. *)
Lemma pixmaps_file_path (env : Env) (name : string) :
  free_of slash name ->
  __get_resource_path env ["share"; "pixmaps"; name]
  = match __get_resource_path env ["share"; "pixmaps"] with
    | Ok dir => Ok (dir ++ "/" ++ name)
    | Raise e => Raise e
    end.
Proof.
  intros Hname. unfold __get_resource_path, resource_filename.
  destruct (sys_frozen env).
  - f_equal.
    change ["share"; "pixmaps"; name] with (["share"; "pixmaps"] ++ [name])%list.
    rewrite join_last. unfold PosixPath.join. cbn [fold_left].
    now apply join_step_pixmaps.
  - destruct (pympress_dist env) as [loc|]; [|reflexivity].
    change (PyStr.join "/" ["pympress"; "share"; "pixmaps"])
      with "pympress/share/pixmaps".
    change (PyStr.join "/" ["pympress"; "share"; "pixmaps"; name])
      with ("pympress/share/pixmaps" ++ String slash name).
    change ("pympress/share/pixmaps" =? "") with false.
    change ("pympress/share/pixmaps" ++ String slash name =? "") with false.
    cbv iota. f_equal.
    rewrite split_char_app_sep, (split_char_of_free _ _ Hname).
    change (split_char slash "pympress/share/pixmaps")
      with ["pympress"; "share"; "pixmaps"].
    rewrite join_last. unfold PosixPath.join. cbn [fold_left].
    now apply join_step_pixmaps.
Qed.

(** X17.  The icons are loaded from the directory that is listed: when
    the pixmaps directory resolves to [dir], [list_icons] lists [dir] and
    [get_icon_pixbuf(name)] opens [dir/name], frozen or installed; when it
    does not resolve, both raise the same lookup error. *)
Theorem icons_listed_and_loaded_in_one_directory (env : Env) (name : string) :
  free_of slash name ->
  match __get_resource_path env ["share"; "pixmaps"] with
  | Ok dir =>
      __get_resource_list env ["share"; "pixmaps"] = os_listdir env dir /\
      get_icon_pixbuf env name = pixbuf_new_from_file env (dir ++ "/" ++ name)
  | Raise e =>
      __get_resource_list env ["share"; "pixmaps"] = Raise e /\
      get_icon_pixbuf env name = Raise e
  end.
Proof.
  intros Hname. unfold get_icon_pixbuf.
  rewrite (pixmaps_file_path env name Hname), resource_list_of_path.
  destruct (__get_resource_path env ["share"; "pixmaps"]); now split.
Qed.

(** X17 (witness): the icon [pympress-16.png] of the frozen program. *)
Lemma icons_listed_and_loaded_in_one_directory_frozen :
  __get_resource_list frozen_with_icons ["share"; "pixmaps"]
  = os_listdir frozen_with_icons "/opt/pympress/share/pixmaps" /\
  get_icon_pixbuf frozen_with_icons "pympress-16.png"
  = pixbuf_new_from_file frozen_with_icons
      "/opt/pympress/share/pixmaps/pympress-16.png".
Proof.
  apply (icons_listed_and_loaded_in_one_directory frozen_with_icons
           "pympress-16.png").
  apply free_of_single_piece. reflexivity.
Defined.

(** X18.  What [load_icons] returns, in terms of the file system alone:
    when the pixmaps directory resolves to [dir] and lists as [entries],
    the result is the images of the files [dir/<entry>] that open, for the
    entries that are icon names, in the order of the listing. *)
Theorem load_icons_from_directory
        (env : Env) (dir : string) (entries : list string) :
  __get_resource_path env ["share"; "pixmaps"] = Ok dir ->
  os_listdir env dir = Ok entries ->
  Forall (free_of slash) entries ->
  fst (load_icons env)
  = Ok (flat_map (fun entry =>
                    match pixbuf_new_from_file env (dir ++ "/" ++ entry) with
                    | Ok p => [p]
                    | Raise _ => []
                    end)
                 (filter is_icon_name entries)).
Proof.
  intros Hdir Hlist Hentries.
  assert (Hnames : list_icons env = Ok (filter is_icon_name entries)).
  { unfold list_icons. now rewrite resource_list_of_path, Hdir, Hlist. }
  unfold load_icons. rewrite Hnames, load_icons_loop. cbn [fst app].
  f_equal. unfold loadable.
  assert (Hsub : Forall (free_of slash) (filter is_icon_name entries)).
  { apply Forall_forall. intros n Hn. apply filter_In in Hn as [Hn _].
    rewrite Forall_forall in Hentries. now apply Hentries. }
  clear Hnames.
  induction Hsub as [|n rest Hn _ IH]; [reflexivity|].
  cbn [flat_map]. rewrite IH. f_equal.
  unfold get_icon_pixbuf. now rewrite (pixmaps_file_path env n Hn), Hdir.
Qed.

(** X18 (witness): of the three entries, [README] is no icon and
    [pympress-32.PNG] does not open. *)
Lemma load_icons_from_directory_frozen :
  fst (load_icons frozen_with_icons)
  = Ok [PixbufOf "/opt/pympress/share/pixmaps/pympress-16.png"].
Proof.
  apply (load_icons_from_directory frozen_with_icons
           "/opt/pympress/share/pixmaps"
           ["pympress-16.png"; "README"; "pympress-32.PNG"]).
  - reflexivity.
  - reflexivity.
  - repeat (apply Forall_cons;
            [apply free_of_single_piece; reflexivity|]).
    apply Forall_nil.
Defined.

(** X19.  Where the style sheet and the translations are looked up:
    [share/css/macos.css] on Mac OS and [share/css/default.css] elsewhere,
    and [share/locale], below the directory of the executable when the
    program is frozen and below the [pympress] package of the installed
    distribution otherwise; without a distribution the lookup error is
    raised. *)
Theorem style_and_locale_paths (env : Env) :
  let css := if IS_MAC_OS env then "macos.css" else "default.css" in
  if sys_frozen env
  then let root := dir_prefix (PosixPath.dirname (sys_executable env)) in
       style_css_file env = Ok (root ++ "share/css/" ++ css) /\
       get_locale_dir env = Ok (root ++ "share/locale")
  else match pympress_dist env with
       | Some loc =>
           style_css_file env
           = Ok (dir_prefix loc ++ "pympress/share/css/" ++ css) /\
           get_locale_dir env = Ok (dir_prefix loc ++ "pympress/share/locale")
       | None =>
           style_css_file env = Raise DistributionNotFound /\
           get_locale_dir env = Raise DistributionNotFound
       end.
Proof.
  cbv zeta.
  assert (Hcss : free_of slash "css")
    by (apply free_of_single_piece; reflexivity).
  assert (Hstyle : forall file,
             valid_resource_name file = true ->
             __get_resource_path env ["share"; "css"; file]
             = if sys_frozen env
               then Ok (dir_prefix (PosixPath.dirname (sys_executable env))
                        ++ "share/css/" ++ file)
               else match pympress_dist env with
                    | Some loc => Ok (dir_prefix loc ++ "pympress/share/css/" ++ file)
                    | None => Raise DistributionNotFound
                    end).
  { intros file Hf.
    now rewrite (get_resource_path_rooted env "css" file Hf ltac:(discriminate) Hcss). }
  assert (Hloc : get_locale_dir env
                 = if sys_frozen env
                   then Ok (dir_prefix (PosixPath.dirname (sys_executable env))
                            ++ "share/locale")
                   else match pympress_dist env with
                        | Some loc => Ok (dir_prefix loc ++ "pympress/share/locale")
                        | None => Raise DistributionNotFound
                        end).
  { unfold get_locale_dir, __get_resource_path.
    destruct (sys_frozen env).
    - f_equal. now rewrite posix_join_joinable.
    - destruct (pympress_dist env) as [loc|] eqn:Hl.
      + change (PyStr.join "/" ["pympress"; "share"; "locale"])
          with "pympress/share/locale".
        apply resource_filename_rooted; [exact Hl | reflexivity | discriminate].
      + unfold resource_filename. now rewrite Hl. }
  unfold style_css_file. rewrite Hloc.
  destruct (IS_MAC_OS env); rewrite Hstyle by reflexivity;
    destruct (sys_frozen env); try destruct (pympress_dist env); now split.
Qed.

End ResourcesMoreFacts.
